(** * chat-app backend: REST routes (users, messages) and the socket relay

    A shallow embedding of [backend/routes/users.js], [backend/routes/messages.js]
    and [backend/index.js].  Mongoose collections are finite maps (users, friend
    requests) and a list in insertion order (messages); a route handler is a
    computation in a small state-and-exception monad that also records every
    collection access it performs. *)

From Stdlib Require Import ZArith Sorted.
From stdpp Require Import gmap strings pretty list fin_maps.

Local Open Scope string_scope.
Local Open Scope list_scope.

(** ** Data model *)

(** A Mongo [ObjectId], as it travels in URLs, bodies and token payloads: its
    24 hexadecimal digits.  Values of this type stand for well-formed ids;
    what Mongoose does with a string it cannot cast is not modelled. *)
Abbreviation ObjectId := string (only parsing).

(** [models/User.js]: the fields the routes touch (see the [UserProfile]
    swagger component).  The [_id] of a stored document is its key in the
    collection. *)
Record User := mkUser {
  username : string;
  profilePicture : option string;
  friends : list ObjectId
}.

Inductive Status := pending | accepted | declined.

(** [models/FriendRequest.js] (swagger component [FriendRequest]).  The
    recipient comes from [req.body.recipientId] and may be undefined. *)
Record FriendRequest := mkFriendRequest {
  requester : ObjectId;
  recipient : option ObjectId;
  status : Status
}.

(** [models/Message.js] (swagger component [Message]).  [receiver] and
    [content] come from [req.body], [media] is [null] when no file came. *)
Record Message := mkMessage {
  sender : ObjectId;
  receiver : option ObjectId;
  content : option string;
  media : option string;
  timestamp : Z
}.

#[global] Instance Status_eq_dec : EqDecision Status.
Proof. solve_decision. Defined.
#[global] Instance User_eq_dec : EqDecision User.
Proof. solve_decision. Defined.
#[global] Instance FriendRequest_eq_dec : EqDecision FriendRequest.
Proof. solve_decision. Defined.
#[global] Instance Message_eq_dec : EqDecision Message.
Proof. solve_decision. Defined.

(** The three collections.  [messages] is kept in natural (insertion) order,
    which is the order an unsorted [find] returns. *)
Record Db := mkDb {
  users : gmap string User;
  friendrequests : gmap string FriendRequest;
  messages : list Message
}.

(** ** Collection accesses, exceptions and the handler monad *)

Inductive DbOp :=
| OpUserFindById (id : option ObjectId)
| OpUserPopulate
| OpUserUpdate (id : ObjectId)
| OpFriendRequestFindById (id : ObjectId)
| OpFriendRequestFind (recipientId : ObjectId)
| OpFriendRequestInsert (id : ObjectId)
| OpFriendRequestUpdate (id : ObjectId)
| OpMessageInsert
| OpMessageFind (a b : ObjectId).

(** What an [async] handler can reject with.  The last two are error kinds
    of the design document; no route raises them. *)
Inductive Exn :=
| TypeError          (* a property read or write on null / undefined *)
| ValidationError    (* the schema validators of a model refuse the document *)
| DuplicateKey       (* insert of an [_id] that is already taken *)
| NotFoundError
| AuthorizationError.

Inductive Result (A : Type) :=
| Returned (a : A)
| Threw (e : Exn).
Arguments Returned {A} a.
Arguments Threw {A} e.

Definition M (A : Type) : Type := Db -> Result A * Db * list DbOp.

Definition ret {A} (a : A) : M A := fun db => (Returned a, db, []).

Definition throw {A} (e : Exn) : M A := fun db => (Threw e, db, []).

Definition bind {A B} (m : M A) (k : A -> M B) : M B :=
  fun db =>
    match m db with
    | (Returned a, db1, ops1) =>
        match k a db1 with
        | (r, db2, ops2) => (r, db2, ops1 ++ ops2)
        end
    | (Threw e, db1, ops1) => (Threw e, db1, ops1)
    end.

Notation "x <- m ;; k" := (bind m (fun x => k))
  (at level 100, m at next level, right associativity).
Notation "'run' m ;; k" := (bind m (fun _ => k))
  (at level 100, m at next level, right associativity).

Definition outcome {A} (r : Result A * Db * list DbOp) : Result A := r.1.1.
Definition db_after {A} (r : Result A * Db * list DbOp) : Db := r.1.2.
Definition ops_of {A} (r : Result A * Db * list DbOp) : list DbOp := r.2.

(** Reading a property of a value that may be [null]: [x.p] throws a
    [TypeError] on [null]. *)
Definition deref {A} (o : option A) : M A :=
  match o with
  | Some a => ret a
  | None => throw TypeError
  end.

(** ** Mongoose documents with change tracking

    A hydrated user document remembers the changes made to it; [save] sends
    exactly those ([$set] for an assigned path, [$push] for [friends.push]). *)

Inductive UserChange :=
| SetProfilePicture (path : string)
| PushFriend (x : ObjectId).

Record UserDocument := mkUserDocument {
  _id : ObjectId;
  current : User;
  delta : list UserChange
}.

Definition apply_change (c : UserChange) (u : User) : User :=
  match c with
  | SetProfilePicture p => mkUser (username u) (Some p) (friends u)
  | PushFriend x => mkUser (username u) (profilePicture u) (friends u ++ [x])
  end.

Definition apply_changes (cs : list UserChange) (u : User) : User :=
  foldl (fun acc c => apply_change c acc) u cs.

Definition hydrate (i : ObjectId) (u : User) : UserDocument := mkUserDocument i u [].

(** [doc.friends.push(x)] *)
Definition friends_push (d : UserDocument) (x : ObjectId) : UserDocument :=
  mkUserDocument (_id d) (apply_change (PushFriend x) (current d))
                 (delta d ++ [PushFriend x]).

(** [doc.profilePicture = p] *)
Definition set_profilePicture (d : UserDocument) (p : string) : UserDocument :=
  mkUserDocument (_id d) (apply_change (SetProfilePicture p) (current d))
                 (delta d ++ [SetProfilePicture p]).

(** [User.findById(id)]; [findById(undefined)] finds nothing. *)
Definition User_findById (id : option ObjectId) : M (option UserDocument) :=
  fun db => (Returned (id ≫= fun i => hydrate i <$> users db !! i), db,
             [OpUserFindById id]).

(** [doc.save()] on a user document: the tracked changes are applied to the
    stored document. *)
Definition User_save (d : UserDocument) : M unit :=
  fun db =>
    (Returned tt,
     mkDb (alter (apply_changes (delta d)) (_id d) (users db))
          (friendrequests db) (messages db),
     [OpUserUpdate (_id d)]).

(** [FriendRequest.findById(id)] *)
Definition FriendRequest_findById (id : ObjectId) : M (option FriendRequest) :=
  fun db => (Returned (friendrequests db !! id), db, [OpFriendRequestFindById id]).

(** [request.save()] on a loaded request whose [status] was assigned. *)
Definition FriendRequest_save (id : ObjectId) (r : FriendRequest) : M unit :=
  fun db =>
    (Returned tt,
     mkDb (users db)
          (alter (fun old => mkFriendRequest (requester old) (recipient old) (status r))
                 id (friendrequests db))
          (messages db),
     [OpFriendRequestUpdate id]).

(** ** Responses *)

(** What [populate(path, 'username profilePicture')] puts in place of a
    reference: the selected fields of the referenced user. *)
Record PublicProfile := mkPublicProfile {
  pp_id : ObjectId;
  pp_username : string;
  pp_profilePicture : option string
}.

Definition public (i : ObjectId) (u : User) : PublicProfile :=
  mkPublicProfile i (username u) (profilePicture u).

Record PopulatedUser := mkPopulatedUser {
  pu_id : ObjectId;
  pu_username : string;
  pu_profilePicture : option string;
  pu_friends : list PublicProfile
}.

Record PopulatedRequest := mkPopulatedRequest {
  pr_id : ObjectId;
  pr_requester : option PublicProfile;
  pr_recipient : option ObjectId;
  pr_status : Status
}.

Record PopulatedMessage := mkPopulatedMessage {
  pm_sender : option PublicProfile;
  pm_receiver : option PublicProfile;
  pm_content : option string;
  pm_media : option string;
  pm_timestamp : Z
}.

Inductive Body :=
| Text (s : string)
| JsonProfile (u : option PopulatedUser)
| JsonUser (i : ObjectId) (u : User)
| JsonRequests (rs : list PopulatedRequest)
| JsonMessages (ms : list PopulatedMessage).

Record Response := mkResponse {
  statusCode : N;
  body : Body
}.

(** [res.send(text)] and [res.json(value)] answer with status 200 unless
    [res.status] was called first. *)
Definition send (s : string) : Response := mkResponse 200 (Text s).
Definition json (b : Body) : Response := mkResponse 200 b.

(** ** Queries with [populate] *)

(** A populated reference is the referenced user's public fields, or [null]
    when no such user is stored (or the path holds no id). *)
Definition populate_ref (db : Db) (ref : option ObjectId) : option PublicProfile :=
  ref ≫= fun i => public i <$> users db !! i.

(** A populated array drops the references that resolve to nothing. *)
Definition populate_refs (db : Db) (refs : list ObjectId) : list PublicProfile :=
  omap (fun i => populate_ref db (Some i)) refs.

Definition populate_friends (db : Db) (i : ObjectId) (u : User) : PopulatedUser :=
  mkPopulatedUser i (username u) (profilePicture u) (populate_refs db (friends u)).

Definition populate_requester (db : Db) (ir : ObjectId * FriendRequest) : PopulatedRequest :=
  mkPopulatedRequest ir.1 (populate_ref db (Some (requester ir.2)))
                     (recipient ir.2) (status ir.2).

Definition populate_message (db : Db) (m : Message) : PopulatedMessage :=
  mkPopulatedMessage (populate_ref db (Some (sender m))) (populate_ref db (receiver m))
                     (content m) (media m) (timestamp m).

(** [User.findById(id).populate('friends', 'username profilePicture')] *)
Definition User_findById_populate_friends (id : ObjectId) : M (option PopulatedUser) :=
  fun db => (Returned (populate_friends db id <$> users db !! id), db,
             [OpUserFindById (Some id); OpUserPopulate]).

(** The filter [{ recipient: id, status: 'pending' }]. *)
Definition pending_for (id : ObjectId) (ir : ObjectId * FriendRequest) : bool :=
  bool_decide (recipient ir.2 = Some id) && bool_decide (status ir.2 = pending).

(** [FriendRequest.find({ recipient, status: 'pending' }).populate('requester', ...)] *)
Definition FriendRequest_find_pending (id : ObjectId) : M (list PopulatedRequest) :=
  fun db =>
    (Returned (populate_requester db <$>
                 List.filter (pending_for id) (map_to_list (friendrequests db))),
     db, [OpFriendRequestFind id; OpUserPopulate]).

(** The filter
    [{ $or: [ { sender: a, receiver: b }, { sender: b, receiver: a } ] }]. *)
Definition between (a b : ObjectId) (m : Message) : bool :=
  (bool_decide (sender m = a) && bool_decide (receiver m = Some b))
  || (bool_decide (sender m = b) && bool_decide (receiver m = Some a)).

(** [Message.find({ $or: ... }).populate('sender receiver', ...)]: no sort is
    asked for, the matches come in the collection's natural order. *)
Definition Message_find_between (a b : ObjectId) : M (list PopulatedMessage) :=
  fun db =>
    (Returned (populate_message db <$> List.filter (between a b) (messages db)),
     db, [OpMessageFind a b; OpUserPopulate]).

(** ** The routes *)

(** The payload [jwt.verify] hands back; the routes read its [id]. *)
Record TokenPayload := mkTokenPayload { id : ObjectId }.

(** What the runtime supplies while a request is handled: the clock read by
    the [timestamp] default and the [_id] generated for a new document. *)
Record Env := mkEnv {
  now : Z;
  new_id : ObjectId
}.

Inductive Route :=
| GET_users_profile
| POST_users_profile_picture (file : option string)
| POST_users_friend_request (reqbody : gmap string string)
| GET_users_friend_requests
| POST_users_friend_request_accept (param_id : ObjectId)
| POST_messages (reqbody : gmap string string) (file : option string)
| GET_messages (receiverId : ObjectId).

Record Request := mkRequest {
  authorization : option string;
  route : Route
}.

(** JavaScript's [!token] for a header value: absent and empty are falsy. *)
Definition falsy (token : option string) : bool :=
  match token with
  | None => true
  | Some s => bool_decide (s = "")
  end.

(** What the routes call and the source does not contain.
    [jwt_verify] is [jwt.verify(token, process.env.JWT_SECRET, cb)]: the
    payload of a token that verifies, nothing for one that does not (bad
    signature, expired).  [message_valid] and [friendrequest_valid] are the
    validators of [models/Message.js] and [models/FriendRequest.js]: does
    [save] accept a new document. *)
Record Externals := mkExternals {
  jwt_verify : string -> option TokenPayload;
  message_valid : Message -> bool;
  friendrequest_valid : FriendRequest -> bool
}.

Section Routes.

Variable ext : Externals.

(** [new FriendRequest({...}).save()] *)
Definition FriendRequest_insert (i : ObjectId) (r : FriendRequest) : M unit :=
  fun db =>
    if negb (friendrequest_valid ext r) then (Threw ValidationError, db, [])
    else match friendrequests db !! i with
         | Some _ => (Threw DuplicateKey, db, [OpFriendRequestInsert i])
         | None =>
             (Returned tt,
              mkDb (users db) (<[i := r]> (friendrequests db)) (messages db),
              [OpFriendRequestInsert i])
         end.

(** [new Message({...}).save()]: the document goes to the end of the
    collection. *)
Definition Message_insert (m : Message) : M unit :=
  fun db =>
    if negb (message_valid ext m) then (Threw ValidationError, db, [])
    else (Returned tt,
          mkDb (users db) (friendrequests db) (messages db ++ [m]),
          [OpMessageInsert]).

(** [router.get('/profile', ...)] *)
Definition getProfile (user : TokenPayload) : M Response :=
  u <- User_findById_populate_friends (id user) ;;
  ret (json (JsonProfile u)).

(** [router.post('/profile-picture', ...)] *)
Definition updateProfilePicture (user : TokenPayload) (file : option string)
  : M Response :=
  u <- User_findById (Some (id user)) ;;
  path <- deref file ;;
  u <- deref u ;;
  let u := set_profilePicture u path in
  run User_save u ;;
  ret (json (JsonUser (_id u) (current u))).

(** [router.post('/friend-request', ...)].
    Modelled from the spec: the [status] default of [models/FriendRequest.js],
    "creates a FriendRequest with status=pending". *)
Definition sendFriendRequest (env : Env) (user : TokenPayload)
    (reqbody : gmap string string) : M Response :=
  let recipientId := reqbody !! "recipientId" in
  let request := mkFriendRequest (id user) recipientId pending in
  run FriendRequest_insert (new_id env) request ;;
  ret (mkResponse 201 (Text "Friend request sent")).

(** [router.get('/friend-requests', ...)] *)
Definition listPendingRequests (user : TokenPayload) : M Response :=
  requests <- FriendRequest_find_pending (id user) ;;
  ret (json (JsonRequests requests)).

(** [router.post('/friend-request/:id/accept', ...)].  The handler reads
    [req.params.id] only; [req.user] is not consulted. *)
Definition acceptFriendRequest (user : TokenPayload) (param_id : ObjectId)
  : M Response :=
  request <- FriendRequest_findById param_id ;;
  request <- deref request ;;
  let request := mkFriendRequest (requester request) (recipient request) accepted in
  run FriendRequest_save param_id request ;;
  requester_ <- User_findById (Some (requester request)) ;;
  recipient_ <- User_findById (recipient request) ;;
  requester_ <- deref requester_ ;;
  recipient_ <- deref recipient_ ;;
  let requester_ := friends_push requester_ (_id recipient_) in
  let recipient_ := friends_push recipient_ (_id requester_) in
  run User_save requester_ ;;
  run User_save recipient_ ;;
  ret (send "Friend request accepted").

(** [router.post('/', ...)] of the messages router.
    Modelled from the spec: the [timestamp] default of [models/Message.js],
    "assigned at persistence time", read from the server clock [now]. *)
Definition sendMessage (env : Env) (user : TokenPayload)
    (reqbody : gmap string string) (file : option string) : M Response :=
  let receiver_ := reqbody !! "receiver" in
  let content_ := reqbody !! "content" in
  let message := mkMessage (id user) receiver_ content_ file (now env) in
  run Message_insert message ;;
  ret (mkResponse 201 (Text "Message sent")).

(** [router.get('/:receiverId', ...)] of the messages router. *)
Definition getConversation (user : TokenPayload) (receiverId : ObjectId)
  : M Response :=
  found <- Message_find_between (id user) receiverId ;;
  ret (json (JsonMessages found)).

(** [authenticateToken(req, res, next)] *)
Definition authenticateToken (req : Request) (next : TokenPayload -> M Response)
  : M Response :=
  let token := authorization req in
  if falsy token then ret (mkResponse 401 (Text "Access denied"))
  else match token ≫= jwt_verify ext with
       | None => ret (mkResponse 403 (Text "Invalid token"))
       | Some user => next user
       end.

(** The handler mounted on each route, behind [authenticateToken]. *)
Definition handler (env : Env) (r : Route) (user : TokenPayload) : M Response :=
  match r with
  | GET_users_profile => getProfile user
  | POST_users_profile_picture file => updateProfilePicture user file
  | POST_users_friend_request reqbody => sendFriendRequest env user reqbody
  | GET_users_friend_requests => listPendingRequests user
  | POST_users_friend_request_accept param_id => acceptFriendRequest user param_id
  | POST_messages reqbody file => sendMessage env user reqbody file
  | GET_messages receiverId => getConversation user receiverId
  end.

Definition handle (env : Env) (req : Request) : M Response :=
  authenticateToken req (handler env (route req)).

End Routes.

(** ** The server: requests against the store, and its clock *)

Record Server := mkServer {
  store : Db;
  clock : Z
}.

Inductive ServerEvent :=
| Tick (d : N)
| Incoming (fresh : ObjectId) (req : Request).

Section Server.

Variable ext : Externals.

(** Modelled from the spec: the clock behind the [timestamp] default of
    [models/Message.js], "monotonically non-decreasing per insertion
    order": time only moves forward between requests. *)
Definition server_step (s : Server) (e : ServerEvent) : Server :=
  match e with
  | Tick d => mkServer (store s) (clock s + Z.of_N d)
  | Incoming fresh req =>
      mkServer (db_after (handle ext (mkEnv (clock s) fresh) req (store s)))
               (clock s)
  end.

Definition server_run (s : Server) (es : list ServerEvent) : Server :=
  foldl server_step s es.

End Server.

(** The messages of a store are in creation order: timestamps never go down
    along the collection. *)
Definition chronological (db : Db) : Prop :=
  Sorted Z.le (timestamp <$> messages db).

(** No stored message is stamped later than the clock shows. *)
Definition not_ahead (s : Server) : Prop :=
  Forall (fun m => (timestamp m <= clock s)%Z) (messages (store s)).

(** ** The socket relay of [index.js] *)

Abbreviation SocketId := string (only parsing).

(** JSON values carried by socket events. *)
#[local] Unset Elimination Schemes.
Inductive JsVal :=
| JNull
| JBool (b : bool)
| JNum (z : Z)
| JStr (s : string)
| JArr (xs : list JsVal)
| JObj (fields : list (string * JsVal)).
#[local] Set Elimination Schemes.

(** The first argument of an inbound event. *)
Inductive Argument :=
| Nullish                                  (* undefined or null *)
| NonObject (v : JsVal)                    (* a number, string, boolean, array *)
| Object (fields : gmap string JsVal).

(** The object [{ sender, receiver, content, media }] that is emitted; a
    field is [None] where the variable is undefined. *)
Record ReceiveMessage := mkReceiveMessage {
  ev_sender : option JsVal;
  ev_receiver : option JsVal;
  ev_content : option JsVal;
  ev_media : option JsVal
}.

(** The parameter pattern [({ sender, receiver, content, media })]:
    destructuring null or undefined throws, a property that is not there
    reads as undefined. *)
Definition destructure (arg : Argument) : Result ReceiveMessage :=
  match arg with
  | Nullish => Threw TypeError
  | NonObject _ => Returned (mkReceiveMessage None None None None)
  | Object fields =>
      Returned (mkReceiveMessage (fields !! "sender") (fields !! "receiver")
                                 (fields !! "content") (fields !! "media"))
  end.

Inductive SocketEvent :=
| Connection (s : SocketId)
| Disconnect (s : SocketId)
| SendMessage (s : SocketId) (arg : Argument).

(** One ['receiveMessage'] packet written to one socket. *)
Definition Delivery : Type := SocketId * ReceiveMessage.

(** [io.emit('receiveMessage', ev)]: one packet to every connected socket. *)
Definition io_emit (sockets : gset string) (ev : ReceiveMessage) : list Delivery :=
  (fun l => (l, ev)) <$> elements sockets.

(** One event on the [io] server; the state is the set of connected sockets.
    Only a connected socket has the ['sendMessage'] listener. *)
Definition relay_step (sockets : gset string) (e : SocketEvent)
  : Result (gset string * list Delivery) :=
  match e with
  | Connection s => Returned ({[s]} ∪ sockets, [])
  | Disconnect s => Returned (sockets ∖ {[s]}, [])
  | SendMessage s arg =>
      if decide (s ∈ sockets) then
        match destructure arg with
        | Returned ev => Returned (sockets, io_emit sockets ev)
        | Threw e => Threw e
        end
      else Returned (sockets, [])
  end.

(** All packets written while a sequence of events is processed; an
    exception escaping a listener ends the process. *)
Fixpoint relay_run (sockets : gset string) (es : list SocketEvent) : list Delivery :=
  match es with
  | [] => []
  | e :: es =>
      match relay_step sockets e with
      | Returned (sockets', ds) => ds ++ relay_run sockets' es
      | Threw _ => []
      end
  end.

(** The packets a given socket received. *)
Definition received (l : SocketId) (ds : list Delivery) : list ReceiveMessage :=
  snd <$> List.filter (fun d => bool_decide (d.1 = l)) ds.

(** ** Notions used to state the properties *)

(** A handler leaves the stored messages alone, or appends one stamped [t]. *)
Definition appends_at_most_one (t : Z) (before after : list Message) : Prop :=
  after = before \/ exists m, after = before ++ [m] /\ timestamp m = t.

(** The store after a completed accept: the request is marked, the requester
    is saved first, then the recipient. *)
Definition accepted_store (i a b : ObjectId) (db : Db) : Db :=
  mkDb (alter (apply_changes [PushFriend a]) b
          (alter (apply_changes [PushFriend b]) a (users db)))
       (alter (fun old => mkFriendRequest (requester old) (recipient old) accepted)
              i (friendrequests db))
       (messages db).

(** The pair condition of a conversation, in the words of the design. *)
Definition in_conversation (a b : ObjectId) (m : Message) : Prop :=
  (sender m = a /\ receiver m = Some b) \/ (sender m = b /\ receiver m = Some a).

#[global] Instance in_conversation_dec a b m : Decision (in_conversation a b m).
Proof. unfold in_conversation. apply _. Defined.

(** A returned item carries the stored message's own fields and, for a
    stored sender or receiver, that user's id, username and picture. *)
Definition enriched (db : Db) (m : Message) (pm : PopulatedMessage) : Prop :=
  pm_content pm = content m /\
  pm_media pm = media m /\
  pm_timestamp pm = timestamp m /\
  (forall u, users db !! sender m = Some u ->
     pm_sender pm = Some (mkPublicProfile (sender m) (username u) (profilePicture u))) /\
  (forall r u, receiver m = Some r -> users db !! r = Some u ->
     pm_receiver pm = Some (mkPublicProfile r (username u) (profilePicture u))).

(** ** Scenario data

    Three users and one pending request from [u1] to [u2]; the token of each
    user verifies, anything else does not. *)

Definition u1 : ObjectId := "66a1f0c2e4b0a1b2c3d4e501".
Definition u2 : ObjectId := "66a1f0c2e4b0a1b2c3d4e502".
Definition u3 : ObjectId := "66a1f0c2e4b0a1b2c3d4e503".
Definition r1 : ObjectId := "66a1f0c2e4b0a1b2c3d4e5f1".
Definition r2 : ObjectId := "66a1f0c2e4b0a1b2c3d4e5f2".
(** An id under which nothing is stored. *)
Definition r404 : ObjectId := "66a1f0c2e4b0a1b2c3d4e404".

Definition scenario_users : gmap string User :=
  <[u1 := mkUser "ann" None []]>
    (<[u2 := mkUser "bob" None []]>
       (<[u3 := mkUser "eve" None []]> ∅)).

Definition scenario_db : Db :=
  mkDb scenario_users (<[r1 := mkFriendRequest u1 (Some u2) pending]> ∅) [].

Definition scenario_verify (token : string) : option TokenPayload :=
  if decide (token = "token-u1") then Some (mkTokenPayload u1)
  else if decide (token = "token-u2") then Some (mkTokenPayload u2)
  else if decide (token = "token-u3") then Some (mkTokenPayload u3)
  else None.

(** A schema without validators, as the swagger components document the
    models (no [required] property). *)
Definition no_validators {A} (_ : A) : bool := true.

Definition scenario_ext : Externals :=
  mkExternals scenario_verify no_validators no_validators.

Definition scenario_env : Env := mkEnv 1000 r2.

(** How often [x] occurs in a friend list. *)
Definition occurrences (x : ObjectId) (l : list ObjectId) : nat :=
  length (List.filter (fun y => bool_decide (y = x)) l).

(** The chat of the scenario: [u1] writes to [u2], [u2] answers later, and
    [u1] also writes to [u3]. *)
Definition scenario_events : list ServerEvent :=
  [ Incoming r2 (mkRequest (Some "token-u1")
      (POST_messages (<["receiver" := u2]> (<["content" := "hi"]> ∅)) None));
    Tick 5;
    Incoming r2 (mkRequest (Some "token-u1")
      (POST_messages (<["receiver" := u3]> (<["content" := "hello"]> ∅)) None));
    Tick 2;
    Incoming r2 (mkRequest (Some "token-u2")
      (POST_messages (<["receiver" := u1]> ∅) (Some "uploads/1007-cat.png"))) ].

Definition scenario_chat : Db :=
  store (server_run scenario_ext (mkServer scenario_db 1000) scenario_events).

(** Three sockets on the relay. *)
Definition scenario_sockets : gset string := {["s1"; "s2"; "s3"]}.

Definition scenario_packet : gmap string JsVal :=
  <["sender" := JStr u1]>
    (<["receiver" := JStr u2]> (<["content" := JStr "hi"]> ∅)).

(** Unfolds a handler down to the store and splits on what it finds there. *)
Ltac step_handler :=
  cbv [bind ret throw deref outcome db_after ops_of
       User_findById User_save User_findById_populate_friends
       FriendRequest_findById FriendRequest_save FriendRequest_find_pending
       FriendRequest_insert Message_insert Message_find_between];
  simpl.

(** ** Multer's disk storage

    Both route files configure [multer.diskStorage] with the same two
    callbacks. *)

(** [destination: (req, file, cb) => cb(null, 'uploads/')] *)
Definition storage_destination : string := "uploads/".

(** [filename: (req, file, cb) => cb(null, Date.now() + '-' + file.originalname)];
    [t] is the reading of [Date.now()], a count of milliseconds. *)
Definition storage_filename (t : N) (originalname : string) : string :=
  (pretty t +:+ "-") +:+ originalname.

(** ** What one request can do to the store *)

(** The store once [request.save()] has marked request [i] accepted. *)
Definition marked_store (i : ObjectId) (db : Db) : Db :=
  mkDb (users db)
       (alter (fun old => mkFriendRequest (requester old) (recipient old) accepted)
              i (friendrequests db))
       (messages db).

(** The store once [user.save()] has written a new picture for [k]. *)
Definition pictured_store (k : ObjectId) (p : string) (db : Db) : Db :=
  mkDb (alter (apply_changes [SetProfilePicture p]) k (users db))
       (friendrequests db) (messages db).

(** The effects a handled request can have had. *)
Inductive transition (db : Db) : Db -> Prop :=
| transition_none : transition db db
| transition_picture k p : transition db (pictured_store k p db)
| transition_request i r :
    friendrequests db !! i = None ->
    status r = pending ->
    transition db (mkDb (users db) (<[i := r]> (friendrequests db)) (messages db))
| transition_marked i : transition db (marked_store i db)
| transition_accepted i a b : transition db (accepted_store i a b db)
| transition_message m :
    transition db (mkDb (users db) (friendrequests db) (messages db ++ [m])).

(** A user record later on: same name, friends only added at the end. *)
Definition user_kept (u u' : User) : Prop :=
  username u' = username u /\ friends u `prefix_of` friends u'.

(** A friend request later on: same parties, status as it was or accepted. *)
Definition request_kept (r r' : FriendRequest) : Prop :=
  requester r' = requester r /\
  recipient r' = recipient r /\
  (status r' = status r \/ status r' = accepted).

(** ** Events that change who is connected to the relay *)

Definition joins (l : SocketId) (e : SocketEvent) : bool :=
  match e with
  | Connection s => bool_decide (s = l)
  | _ => false
  end.

Definition joins_or_leaves (l : SocketId) (e : SocketEvent) : bool :=
  match e with
  | Connection s | Disconnect s => bool_decide (s = l)
  | SendMessage _ _ => false
  end.

(** ** The Message schema

    Modelled from the spec: the validators of [models/Message.js], which is
    not in the source.  "Message: ... text content (nullable if media
    present), media reference (nullable)"; [sendMessage] "fails with
    ValidationError if both content and mediaRef are absent". *)
Definition Message_schema_valid (m : Message) : bool :=
  match content m, media m with
  | None, None => false
  | _, _ => true
  end.

(** ** More scenario data *)

(** A store whose second message carries the earlier clock reading. *)
Definition scenario_db_back : Db :=
  mkDb scenario_users (friendrequests scenario_db)
       [ mkMessage u1 (Some u2) (Some "late") None 2000;
         mkMessage u2 (Some u1) (Some "early") None 1000 ].

(** [u1] has also asked a user who is not stored. *)
Definition scenario_db_orphan : Db :=
  mkDb scenario_users
       (<[r2 := mkFriendRequest u1 (Some r404) pending]> (friendrequests scenario_db))
       [].

(** [u2] accepts [r1], then [u1] uploads a picture. *)
Definition scenario_friend_events : list ServerEvent :=
  [ Incoming r2 (mkRequest (Some "token-u2") (POST_users_friend_request_accept r1));
    Tick 3;
    Incoming r2 (mkRequest (Some "token-u1")
      (POST_users_profile_picture (Some "uploads/1003-ann.png"))) ].

(** * Properties *)

(** ** Running the monad *)

Lemma bind_returned {A B} (m : M A) (k : A -> M B) db a db1 ops1 :
  m db = (Returned a, db1, ops1) ->
  bind m k db = (outcome (k a db1), db_after (k a db1), ops1 ++ ops_of (k a db1)).
Proof.
  unfold bind, outcome, db_after, ops_of. intros ->.
  by destruct (k a db1) as [[r db2] ops2].
Qed.

Lemma bind_threw {A B} (m : M A) (k : A -> M B) db e db1 ops1 :
  m db = (Threw e, db1, ops1) -> bind m k db = (Threw e, db1, ops1).
Proof. unfold bind. by intros ->. Qed.

Section RouteFacts.

Variable ext : Externals.

(** *** What [sendMessage] does to the store *)

Lemma sendMessage_valid env user reqbody file db :
  let m := mkMessage (id user) (reqbody !! "receiver") (reqbody !! "content")
                     file (now env) in
  message_valid ext m = true ->
  sendMessage ext env user reqbody file db =
    (Returned (mkResponse 201 (Text "Message sent")),
     mkDb (users db) (friendrequests db) (messages db ++ [m]),
     [OpMessageInsert]).
Proof.
  intros m Hv. unfold sendMessage. step_handler. fold m. by rewrite Hv.
Qed.

Lemma sendMessage_invalid env user reqbody file db :
  let m := mkMessage (id user) (reqbody !! "receiver") (reqbody !! "content")
                     file (now env) in
  message_valid ext m = false ->
  sendMessage ext env user reqbody file db = (Threw ValidationError, db, []).
Proof.
  intros m Hv. unfold sendMessage. step_handler. fold m. by rewrite Hv.
Qed.

Lemma handler_messages env r user db :
  appends_at_most_one (now env) (messages db)
                      (messages (db_after (handler ext env r user db))).
Proof.
  destruct r; unfold handler, getProfile, updateProfilePicture, sendFriendRequest,
    listPendingRequests, acceptFriendRequest, sendMessage, getConversation;
    step_handler;
    repeat (case_match; simpl; simplify_eq; try (by left));
    try (by left).
  right. eexists. split; [reflexivity|done].
Qed.

(** *** Authentication comes first *)

Lemma handle_no_token env req db :
  falsy (authorization req) = true ->
  handle ext env req db = (Returned (mkResponse 401 (Text "Access denied")), db, []).
Proof. intros H. unfold handle, authenticateToken. by rewrite H. Qed.

Lemma handle_bad_token env req db :
  falsy (authorization req) = false ->
  authorization req ≫= jwt_verify ext = None ->
  handle ext env req db = (Returned (mkResponse 403 (Text "Invalid token")), db, []).
Proof. intros H1 H2. unfold handle, authenticateToken. by rewrite H1, H2. Qed.

Lemma handle_verified env req db user :
  falsy (authorization req) = false ->
  authorization req ≫= jwt_verify ext = Some user ->
  handle ext env req db = handler ext env (route req) user db.
Proof. intros H1 H2. unfold handle, authenticateToken. by rewrite H1, H2. Qed.

Lemma handle_cases env req db :
  handle ext env req db = (Returned (mkResponse 401 (Text "Access denied")), db, [])
  \/ handle ext env req db = (Returned (mkResponse 403 (Text "Invalid token")), db, [])
  \/ exists user, handle ext env req db = handler ext env (route req) user db.
Proof.
  destruct (falsy (authorization req)) eqn:Hf.
  - left. by apply handle_no_token.
  - destruct (authorization req ≫= jwt_verify ext) as [user|] eqn:Hv.
    + right; right. exists user. by apply handle_verified.
    + right; left. by apply handle_bad_token.
Qed.

Lemma handle_messages env req db :
  appends_at_most_one (now env) (messages db)
                      (messages (db_after (handle ext env req db))).
Proof.
  destruct (handle_cases env req db) as [-> | [-> | [user ->]]];
    [by left | by left | apply handler_messages].
Qed.

(** *** What [acceptFriendRequest] does to the store *)

Lemma accept_absent user i db :
  friendrequests db !! i = None ->
  acceptFriendRequest user i db = (Threw TypeError, db, [OpFriendRequestFindById i]).
Proof. intros H. unfold acceptFriendRequest. step_handler. by rewrite H. Qed.

Lemma accept_found user i db r b ua ub :
  friendrequests db !! i = Some r ->
  recipient r = Some b ->
  users db !! requester r = Some ua ->
  users db !! b = Some ub ->
  acceptFriendRequest user i db =
    (Returned (send "Friend request accepted"),
     accepted_store i (requester r) b db,
     [OpFriendRequestFindById i; OpFriendRequestUpdate i;
      OpUserFindById (Some (requester r)); OpUserFindById (Some b);
      OpUserUpdate (requester r); OpUserUpdate b]).
Proof.
  intros Hr Hb Hua Hub. unfold acceptFriendRequest. step_handler.
  rewrite Hr. simpl. rewrite Hb. simpl. rewrite Hua, Hub. simpl. done.
Qed.

Lemma accepted_store_request i a b db r :
  friendrequests db !! i = Some r ->
  friendrequests (accepted_store i a b db) !! i
    = Some (mkFriendRequest (requester r) (recipient r) accepted).
Proof. intros H. simpl. by rewrite lookup_alter_eq, H. Qed.

Lemma accepted_store_requester i a b db ua :
  a <> b ->
  users db !! a = Some ua ->
  users (accepted_store i a b db) !! a
    = Some (mkUser (username ua) (profilePicture ua) (friends ua ++ [b])).
Proof.
  intros Hne H. simpl.
  rewrite lookup_alter_ne by done. by rewrite lookup_alter_eq, H.
Qed.

Lemma accepted_store_recipient i a b db ub :
  a <> b ->
  users db !! b = Some ub ->
  users (accepted_store i a b db) !! b
    = Some (mkUser (username ub) (profilePicture ub) (friends ub ++ [a])).
Proof.
  intros Hne H. simpl.
  rewrite lookup_alter_eq. rewrite lookup_alter_ne by done. by rewrite H.
Qed.

Lemma accepted_store_other_user i a b db k :
  k <> a -> k <> b ->
  users (accepted_store i a b db) !! k = users db !! k.
Proof. intros Ha Hb. simpl. by rewrite !lookup_alter_ne. Qed.

Lemma accepted_store_other_request i a b db k :
  k <> i ->
  friendrequests (accepted_store i a b db) !! k = friendrequests db !! k.
Proof. intros Hk. simpl. by rewrite lookup_alter_ne. Qed.

End RouteFacts.

Lemma occurrences_snoc x l : occurrences x (l ++ [x]) = S (occurrences x l).
Proof.
  unfold occurrences. rewrite List.filter_app, length_app. simpl.
  rewrite bool_decide_eq_true_2 by done. simpl. lia.
Qed.

Lemma occurrences_absent x l : x ∉ l -> occurrences x l = 0.
Proof.
  unfold occurrences. induction l as [|y l IH]; [done|].
  intros Hn. apply not_elem_of_cons in Hn as [Hxy Hl]. simpl.
  rewrite bool_decide_eq_false_2 by done. by apply IH.
Qed.

(** ** Friend requests *)

Section FriendRequests.

(** C1, as the code has it: a completed [acceptFriendRequest] on a request
    between two distinct stored users marks the request accepted and appends
    each party once to the other's friend list, so that each occurs exactly
    once in the other's list when it did not occur before; the handler does
    not look at the request's status, and a second call with the same id
    appends each party once more. *)
Theorem accept_appends_each_time user i db r b ua ub :
  friendrequests db !! i = Some r ->
  recipient r = Some b ->
  requester r <> b ->
  users db !! requester r = Some ua ->
  users db !! b = Some ub ->
  let a := requester r in
  let db1 := db_after (acceptFriendRequest user i db) in
  let db2 := db_after (acceptFriendRequest user i db1) in
  status <$> friendrequests db1 !! i = Some accepted /\
  friends <$> users db1 !! a = Some (friends ua ++ [b]) /\
  friends <$> users db1 !! b = Some (friends ub ++ [a]) /\
  (b ∉ friends ua -> occurrences b (friends ua ++ [b]) = 1) /\
  (a ∉ friends ub -> occurrences a (friends ub ++ [a]) = 1) /\
  friends <$> users db2 !! a = Some ((friends ua ++ [b]) ++ [b]) /\
  friends <$> users db2 !! b = Some ((friends ub ++ [a]) ++ [a]) /\
  occurrences b ((friends ua ++ [b]) ++ [b]) = S (S (occurrences b (friends ua))).
Proof.
  intros Hr Hb Hne Hua Hub a db1 db2.
  assert (E1 : db1 = accepted_store i a b db).
  { unfold db1. by rewrite (accept_found user i db r b ua ub). }
  pose proof (accepted_store_request i a b db r Hr) as Hr1.
  pose proof (accepted_store_requester i a b db ua Hne Hua) as Hua1.
  pose proof (accepted_store_recipient i a b db ub Hne Hub) as Hub1.
  rewrite <- E1 in Hr1, Hua1, Hub1.
  assert (E2 : db2 = accepted_store i a b db1).
  { unfold db2. by rewrite (accept_found user i db1 _ b _ _ Hr1 Hb Hua1 Hub1). }
  pose proof (accepted_store_requester i a b db1 _ Hne Hua1) as Hua2.
  pose proof (accepted_store_recipient i a b db1 _ Hne Hub1) as Hub2.
  rewrite <- E2 in Hua2, Hub2.
  rewrite Hr1, Hua1, Hub1, Hua2, Hub2. simpl.
  repeat split; try done.
  - intros Hn. by rewrite occurrences_snoc, occurrences_absent.
  - intros Hn. by rewrite occurrences_snoc, occurrences_absent.
  - by rewrite !occurrences_snoc.
Qed.

(** C4, as the code has it: on an id with no stored request the handler
    throws a [TypeError] right after the lookup (no [NotFoundError] is
    raised) and the store is untouched; the store changes only when the
    request exists, and when the request and both users exist the request
    is accepted and each party is appended to the other's friend list. *)
Theorem accept_of_absent_request_throws user i db :
  (friendrequests db !! i = None ->
     acceptFriendRequest user i db
       = (Threw TypeError, db, [OpFriendRequestFindById i])) /\
  (db_after (acceptFriendRequest user i db) <> db ->
     is_Some (friendrequests db !! i)) /\
  (forall r b ua ub,
     friendrequests db !! i = Some r ->
     recipient r = Some b ->
     requester r <> b ->
     users db !! requester r = Some ua ->
     users db !! b = Some ub ->
     let db1 := db_after (acceptFriendRequest user i db) in
     outcome (acceptFriendRequest user i db)
       = Returned (send "Friend request accepted") /\
     status <$> friendrequests db1 !! i = Some accepted /\
     friends <$> users db1 !! requester r = Some (friends ua ++ [b]) /\
     friends <$> users db1 !! b = Some (friends ub ++ [requester r])).
Proof.
  split; [apply accept_absent|]. split.
  - intros Hch. destruct (friendrequests db !! i) eqn:E; [by eexists|].
    by rewrite accept_absent in Hch.
  - intros r b ua ub Hr Hb Hne Hua Hub db1. unfold db1.
    rewrite (accept_found user i db r b ua ub) by done.
    unfold outcome, db_after. cbn [fst snd].
    rewrite (accepted_store_request _ _ _ _ r),
            (accepted_store_requester _ _ _ _ ua),
            (accepted_store_recipient _ _ _ _ ub) by done.
    done.
Qed.

End FriendRequests.

(** The scenario of C1 run on the code: [u2] accepts [r1] twice. *)
Lemma accept_appends_each_time_witness :
  friends <$> users (db_after (acceptFriendRequest (mkTokenPayload u2) r1
      (db_after (acceptFriendRequest (mkTokenPayload u2) r1 scenario_db))))
    !! u1 = Some [u2; u2].
Proof.
  refine (proj1 (proj2 (proj2 (proj2 (proj2 (proj2
    (accept_appends_each_time (mkTokenPayload u2) r1 scenario_db
       (mkFriendRequest u1 (Some u2) pending) u2
       (mkUser "ann" None []) (mkUser "bob" None []) _ _ _ _ _))))))).
  - reflexivity.
  - reflexivity.
  - simpl. discriminate.
  - reflexivity.
  - reflexivity.
Defined.

(** C1 fails on the code: after a second accept of the same request each
    user is twice in the other's friend list, and the store has changed. *)
Lemma second_accept_is_not_a_noop :
  let db1 := db_after (acceptFriendRequest (mkTokenPayload u2) r1 scenario_db) in
  let db2 := db_after (acceptFriendRequest (mkTokenPayload u2) r1 db1) in
  status <$> friendrequests db1 !! r1 = Some accepted /\
  friends <$> users db1 !! u1 = Some [u2] /\
  friends <$> users db2 !! u1 = Some [u2; u2] /\
  friends <$> users db2 !! u2 = Some [u1; u1] /\
  occurrences u2 [u2; u2] = 2 /\
  db2 <> db1.
Proof.
  repeat split; try reflexivity.
  intros H.
  apply (f_equal (fun d => friends <$> users d !! u1)) in H.
  vm_compute in H. discriminate H.
Qed.

Lemma accept_of_absent_request_throws_witness :
  acceptFriendRequest (mkTokenPayload u2) r404 scenario_db
    = (Threw TypeError, scenario_db, [OpFriendRequestFindById r404]).
Proof.
  apply (proj1 (accept_of_absent_request_throws (mkTokenPayload u2) r404
                  scenario_db)).
  reflexivity.
Defined.

(** C4 fails on the code: the failure on an unknown id is the [TypeError] of
    [request.status = ...] on [null], not a [NotFoundError]. *)
Lemma absent_request_is_a_TypeError :
  let r := acceptFriendRequest (mkTokenPayload u2) r404 scenario_db in
  friendrequests scenario_db !! r404 = None /\
  outcome r = Threw TypeError /\
  outcome r <> Threw NotFoundError.
Proof. repeat split; try reflexivity. vm_compute. discriminate. Qed.

Section Authorization.

Variable ext : Externals.

(** C5, as the code has it: [acceptFriendRequest] never compares the acting
    user with the request's recipient.  Whoever presents a token that
    verifies gets the request accepted and both friend lists extended, and
    the result is the same for every acting user. *)
Theorem accept_ignores_acting_user env token user i db r b ua ub :
  token <> "" ->
  jwt_verify ext token = Some user ->
  friendrequests db !! i = Some r ->
  recipient r = Some b ->
  users db !! requester r = Some ua ->
  users db !! b = Some ub ->
  handle ext env (mkRequest (Some token) (POST_users_friend_request_accept i)) db
    = (Returned (send "Friend request accepted"),
       accepted_store i (requester r) b db,
       [OpFriendRequestFindById i; OpFriendRequestUpdate i;
        OpUserFindById (Some (requester r)); OpUserFindById (Some b);
        OpUserUpdate (requester r); OpUserUpdate b])
  /\ forall other, acceptFriendRequest other i db = acceptFriendRequest user i db.
Proof.
  intros Htok Hv Hr Hb Hua Hub. split; [|done].
  rewrite (handle_verified _ _ _ _ user).
  - simpl. by apply (accept_found user i db r b ua ub).
  - simpl. by apply bool_decide_eq_false_2.
  - done.
Qed.

End Authorization.

Lemma accept_ignores_acting_user_witness :
  handle scenario_ext scenario_env
         (mkRequest (Some "token-u3") (POST_users_friend_request_accept r1))
         scenario_db
    = (Returned (send "Friend request accepted"),
       accepted_store r1 u1 u2 scenario_db,
       [OpFriendRequestFindById r1; OpFriendRequestUpdate r1;
        OpUserFindById (Some u1); OpUserFindById (Some u2);
        OpUserUpdate u1; OpUserUpdate u2]).
Proof.
  refine (proj1 (accept_ignores_acting_user scenario_ext scenario_env
                   "token-u3" (mkTokenPayload u3) r1 scenario_db
                   (mkFriendRequest u1 (Some u2) pending) u2
                   (mkUser "ann" None []) (mkUser "bob" None []) _ _ _ _ _ _)).
  - discriminate.
  - reflexivity.
  - reflexivity.
  - reflexivity.
  - reflexivity.
  - reflexivity.
Defined.

(** C5 fails on the code: [u3], who is neither party of [r1], accepts it. *)
Lemma accept_by_a_third_user_goes_through :
  let req := mkRequest (Some "token-u3") (POST_users_friend_request_accept r1) in
  let r := handle scenario_ext scenario_env req
                  scenario_db in
  recipient <$> friendrequests scenario_db !! r1 = Some (Some u2) /\
  jwt_verify scenario_ext "token-u3" = Some (mkTokenPayload u3) /\
  outcome r = Returned (send "Friend request accepted") /\
  outcome r <> Threw AuthorizationError /\
  status <$> friendrequests (db_after r) !! r1 = Some accepted /\
  friends <$> users (db_after r) !! u1 = Some [u2] /\
  friends <$> users (db_after r) !! u2 = Some [u1].
Proof. repeat split; try reflexivity. vm_compute. discriminate. Qed.

(** ** Authentication, sending and keeping messages *)

Lemma prefix_of_appends t (before after : list Message) :
  appends_at_most_one t before after -> before `prefix_of` after.
Proof.
  intros [-> | (m & -> & _)]; [done | by apply prefix_app_r].
Qed.

Section Messages.

Variable ext : Externals.

(** C8, as the code has it: on every protected route a request without an
    [Authorization] header (or with an empty one) is answered 401
    "Access denied", and one whose token does not verify is answered 403
    "Invalid token"; either way the handler is not entered, the store is
    unchanged and no collection is read or written. *)
Theorem authentication_short_circuits env req db :
  (authorization req = None ->
     handle ext env req db
       = (Returned (mkResponse 401 (Text "Access denied")), db, [])) /\
  (authorization req = Some "" ->
     handle ext env req db
       = (Returned (mkResponse 401 (Text "Access denied")), db, [])) /\
  (forall token,
     authorization req = Some token ->
     token <> "" ->
     jwt_verify ext token = None ->
     handle ext env req db
       = (Returned (mkResponse 403 (Text "Invalid token")), db, [])).
Proof.
  repeat split.
  - intros H. apply handle_no_token. by rewrite H.
  - intros H. apply handle_no_token. by rewrite H.
  - intros token H Hne Hv. apply handle_bad_token; rewrite H; simpl; [|done].
    by apply bool_decide_eq_false_2.
Qed.

(** The handler makes no check of its own: with neither content nor media it
    builds the message all the same and hands it to [save], where the
    validators of the Message schema decide. *)
Lemma sendMessage_without_content_and_media env user reqbody db :
  reqbody !! "content" = None ->
  let m := mkMessage (id user) (reqbody !! "receiver") None None (now env) in
  sendMessage ext env user reqbody None db =
    if message_valid ext m
    then (Returned (mkResponse 201 (Text "Message sent")),
          mkDb (users db) (friendrequests db) (messages db ++ [m]),
          [OpMessageInsert])
    else (Threw ValidationError, db, []).
Proof.
  intros Hc m. unfold sendMessage. step_handler. rewrite Hc. fold m.
  by destruct (message_valid ext m).
Qed.

Lemma server_step_messages s e :
  messages (store s)
    `prefix_of` messages (store (server_step ext s e)).
Proof.
  destruct e as [d | fresh req]; simpl; [done|].
  eapply prefix_of_appends, handle_messages.
Qed.

Lemma server_run_messages es : forall s,
  messages (store s) `prefix_of` messages (store (server_run ext s es)).
Proof.
  induction es as [|e es IH]; intros s; simpl; [done|].
  etrans; [apply server_step_messages | apply IH].
Qed.

(** C9: stored messages are never edited or deleted.  Whatever requests the
    server handles, the messages it held stay where they were, field for
    field; [sendMessage] touches neither users nor friend requests and
    either leaves the messages as they are or appends the new one. *)
Theorem messages_are_immutable s es :
  messages (store s) `prefix_of` messages (store (server_run ext s es)) /\
  (forall k m,
     messages (store s) !! k = Some m ->
     messages (store (server_run ext s es)) !! k = Some m) /\
  (forall env user reqbody file db,
     let m := mkMessage (id user) (reqbody !! "receiver") (reqbody !! "content")
                        file (now env) in
     let db' := db_after (sendMessage ext env user reqbody file db) in
     users db' = users db /\
     friendrequests db' = friendrequests db /\
     (messages db' = messages db \/ messages db' = messages db ++ [m])).
Proof.
  split; [apply server_run_messages|]. split.
  - intros k m Hk.
    destruct (server_run_messages es s) as [tl ->].
    by apply lookup_app_l_Some.
  - intros env user reqbody file db m db'. unfold db'.
    destruct (message_valid ext m) eqn:Hv.
    + rewrite sendMessage_valid by done. simpl. auto.
    + rewrite sendMessage_invalid by done. simpl. auto.
Qed.

End Messages.

Lemma authentication_short_circuits_witness :
  handle scenario_ext scenario_env
         (mkRequest (Some "expired") (POST_messages ∅ None)) scenario_db
    = (Returned (mkResponse 403 (Text "Invalid token")), scenario_db, []).
Proof.
  apply (proj2 (proj2 (authentication_short_circuits scenario_ext scenario_env
                         (mkRequest (Some "expired") (POST_messages ∅ None))
                         scenario_db)) "expired").
  - reflexivity.
  - discriminate.
  - reflexivity.
Defined.

(** C8 fails on the code: a token that does not verify is answered 403, not
    401. *)
Lemma invalid_token_is_answered_403 :
  let req := mkRequest (Some "expired") (POST_messages ∅ None) in
  let r := handle scenario_ext scenario_env req
                  scenario_db in
  jwt_verify scenario_ext "expired" = None /\
  outcome r = Returned (mkResponse 403 (Text "Invalid token")) /\
  (forall b, outcome r <> Returned (mkResponse 401 b)).
Proof.
  repeat split; try reflexivity. intros b. vm_compute. discriminate.
Qed.

Lemma Message_schema_valid_spec m :
  Message_schema_valid m = false <-> content m = None /\ media m = None.
Proof.
  unfold Message_schema_valid.
  destruct (content m), (media m); split; (intros [? ?] || intros ?); done.
Qed.

(** C3: with the validators of the Message schema as the design describes
    them, [sendMessage] fails with a [ValidationError] whenever the request
    carries neither a text content nor a media file, on the handler and on
    the authenticated route alike; nothing is persisted and no collection is
    touched. *)
Theorem sendMessage_rejects_a_message_without_content_and_media
    (verify : string -> option TokenPayload) (fv : FriendRequest -> bool)
    env user reqbody db :
  reqbody !! "content" = None ->
  let ext := mkExternals verify Message_schema_valid fv in
  sendMessage ext env user reqbody None db = (Threw ValidationError, db, []) /\
  forall token,
    token <> "" ->
    verify token = Some user ->
    handle ext env (mkRequest (Some token) (POST_messages reqbody None)) db
      = (Threw ValidationError, db, []).
Proof.
  intros Hc ext.
  assert (Hrun : sendMessage ext env user reqbody None db
                 = (Threw ValidationError, db, [])).
  { by rewrite (sendMessage_without_content_and_media ext env user reqbody db Hc). }
  split; [done|]. intros token Htok Hv.
  rewrite (handle_verified _ _ _ _ user); [done| |done].
  simpl. by apply bool_decide_eq_false_2.
Qed.

Lemma sendMessage_rejects_a_message_without_content_and_media_witness :
  sendMessage (mkExternals scenario_verify Message_schema_valid no_validators)
              scenario_env (mkTokenPayload u1) (<["receiver" := u2]> ∅) None
              scenario_db
    = (Threw ValidationError, scenario_db, []).
Proof.
  refine (proj1 (sendMessage_rejects_a_message_without_content_and_media
                   scenario_verify no_validators scenario_env (mkTokenPayload u1)
                   (<["receiver" := u2]> ∅) scenario_db _)).
  reflexivity.
Defined.

Example message_with_content_passes_the_schema :
  outcome (sendMessage (mkExternals scenario_verify Message_schema_valid
                                    no_validators)
             scenario_env (mkTokenPayload u1)
             (<["receiver" := u2]> (<["content" := "hi"]> ∅)) None scenario_db)
    = Returned (mkResponse 201 (Text "Message sent")).
Proof. reflexivity. Qed.

(** ** Conversations *)

Lemma between_spec a b m : between a b m = true <-> in_conversation a b m.
Proof.
  unfold between, in_conversation.
  rewrite orb_true_iff, !andb_true_iff, !bool_decide_eq_true. done.
Qed.

Lemma between_sym a b m : between a b m = between b a m.
Proof. unfold between. apply orb_comm. Qed.

Lemma filter_between a b (l : list Message) :
  List.filter (between a b) l = filter (in_conversation a b) l.
Proof.
  induction l as [|m l IH]; [done|]. simpl. rewrite IH.
  destruct (between a b m) eqn:E.
  - rewrite filter_cons_True; [done|]. by apply between_spec.
  - rewrite filter_cons_False; [done|]. rewrite <- between_spec. congruence.
Qed.

Lemma populate_message_enriched db m : enriched db m (populate_message db m).
Proof.
  unfold enriched, populate_message, populate_ref. simpl.
  repeat split; try done.
  - intros u ->. done.
  - intros r u -> Hu. simpl. by rewrite Hu.
Qed.

Lemma StronglySorted_timestamps_filter (f : Message -> bool) l :
  StronglySorted Z.le (timestamp <$> l) ->
  StronglySorted Z.le (timestamp <$> List.filter f l).
Proof.
  induction l as [|m l IH]; simpl; intros H; [constructor|].
  apply StronglySorted_inv in H as [Hl Hm].
  destruct (f m); simpl; [|by apply IH].
  constructor; [by apply IH|].
  rewrite Forall_fmap in Hm |- *. rewrite Forall_forall in Hm |- *.
  intros x Hx. apply Hm. apply list_elem_of_In in Hx.
  apply list_elem_of_In. apply List.filter_In in Hx. tauto.
Qed.

Lemma Sorted_timestamps_filter (f : Message -> bool) l :
  Sorted Z.le (timestamp <$> l) -> Sorted Z.le (timestamp <$> List.filter f l).
Proof.
  intros H. apply StronglySorted_Sorted, StronglySorted_timestamps_filter.
  apply Sorted_StronglySorted; [|done]. intros x y z. apply Z.le_trans.
Qed.

Lemma populated_timestamps db (l : list Message) :
  pm_timestamp <$> (populate_message db <$> l) = timestamp <$> l.
Proof. rewrite <- list_fmap_compose. by apply list_fmap_ext. Qed.

Section Conversations.

(** The query asks for no sort: the matches come in the collection's order,
    which is ascending creation time when the collection is in creation
    order. *)
Lemma getConversation_on_chronological_store user other db :
  chronological db ->
  exists found,
    getConversation user other db
      = (Returned (json (JsonMessages found)), db,
         [OpMessageFind (id user) other; OpUserPopulate]) /\
    Forall2 (enriched db)
            (filter (in_conversation (id user) other) (messages db)) found /\
    (forall m, m ∈ filter (in_conversation (id user) other) (messages db) <->
               in_conversation (id user) other m /\ m ∈ messages db) /\
    Sorted Z.le (pm_timestamp <$> found).
Proof.
  intros Hs.
  exists (populate_message db <$> List.filter (between (id user) other) (messages db)).
  split; [done|]. split; [|split].
  - rewrite <- filter_between. apply Forall2_fmap_r, Forall_Forall2_diag.
    apply Forall_forall. intros m _. apply populate_message_enriched.
  - intros m. apply list_elem_of_filter.
  - rewrite populated_timestamps. by apply Sorted_timestamps_filter.
Qed.

(** C2, as the code has it: [getConversation] answers with exactly the
    stored messages whose (sender, receiver) is the pair of the two users in
    either direction, in the order in which the collection holds them (the
    query asks for no sort), each carrying its own fields and the id,
    username and picture of its sender and receiver; the store is not
    changed.  The order is ascending creation time whenever the stored
    messages are in creation order. *)
Theorem getConversation_returns_in_stored_order user other db :
  exists found,
    getConversation user other db
      = (Returned (json (JsonMessages found)), db,
         [OpMessageFind (id user) other; OpUserPopulate]) /\
    Forall2 (enriched db)
            (filter (in_conversation (id user) other) (messages db)) found /\
    (forall m, m ∈ filter (in_conversation (id user) other) (messages db) <->
               in_conversation (id user) other m /\ m ∈ messages db) /\
    pm_timestamp <$> found
      = timestamp <$> filter (in_conversation (id user) other) (messages db) /\
    (chronological db -> Sorted Z.le (pm_timestamp <$> found)).
Proof.
  exists (populate_message db <$> List.filter (between (id user) other) (messages db)).
  split; [done|]. split; [|split; [|split]].
  - rewrite <- filter_between. apply Forall2_fmap_r, Forall_Forall2_diag.
    apply Forall_forall. intros m _. apply populate_message_enriched.
  - intros m. apply list_elem_of_filter.
  - by rewrite populated_timestamps, filter_between.
  - intros Hs. rewrite populated_timestamps. by apply Sorted_timestamps_filter.
Qed.

(** C7: the conversation query is symmetric in its two users: asked by [a]
    about [b] or by [b] about [a], the answer is the same list of messages
    in the same order, and the store is not changed. *)
Theorem getConversation_symmetric a b db :
  outcome (getConversation (mkTokenPayload a) b db)
    = outcome (getConversation (mkTokenPayload b) a db) /\
  db_after (getConversation (mkTokenPayload a) b db) = db /\
  db_after (getConversation (mkTokenPayload b) a db) = db.
Proof.
  unfold getConversation. step_handler. repeat split.
  rewrite (List.filter_ext (between a b) (between b a)); [done|].
  intros m. apply between_sym.
Qed.

End Conversations.

(** *** Stores the server builds are in creation order *)

Lemma Sorted_le_snoc (ts : list Z) (t : Z) :
  Sorted Z.le ts -> Forall (fun x => (x <= t)%Z) ts -> Sorted Z.le (ts ++ [t]).
Proof.
  induction ts as [|x ts IH]; simpl; intros Hs Hf.
  - repeat constructor.
  - apply Sorted_inv in Hs as [Hs Hhd]. apply Forall_cons in Hf as [Hx Hf].
    constructor; [by apply IH|].
    destruct ts as [|y ts]; simpl; constructor; [done|].
    by apply HdRel_inv in Hhd.
Qed.

Section Chronology.

Variable ext : Externals.

Lemma server_step_chronological s e :
  chronological (store s) -> not_ahead s ->
  chronological (store (server_step ext s e)) /\ not_ahead (server_step ext s e).
Proof.
  unfold chronological, not_ahead. intros Hs Hf.
  destruct e as [d | fresh req]; simpl.
  - split; [done|]. eapply Forall_impl; [exact Hf|]. simpl. intros m Hm. lia.
  - destruct (handle_messages ext
                (mkEnv (clock s) fresh) req (store s)) as [-> | (m & -> & Ht)];
      [done|]. simpl in Ht. split.
    + rewrite fmap_app. simpl. apply Sorted_le_snoc; [done|].
      rewrite Forall_fmap, Ht. exact Hf.
    + apply Forall_app. split; [done|]. constructor; [lia|constructor].
Qed.

Lemma server_run_chronological es : forall s,
  chronological (store s) -> not_ahead s ->
  chronological (store (server_run ext s es)) /\ not_ahead (server_run ext s es).
Proof.
  induction es as [|e es IH]; intros s Hs Hf; simpl; [done|].
  destruct (server_step_chronological s e Hs Hf) as [Hs' Hf'].
  by apply IH.
Qed.

(** Starting with no messages, whatever the server handles afterwards its
    message collection is in creation order. *)
Lemma server_from_no_messages_chronological us rs t es :
  chronological (store (server_run ext (mkServer (mkDb us rs []) t) es)).
Proof.
  apply server_run_chronological; [constructor | constructor].
Qed.

End Chronology.

Example scenario_chat_messages :
  messages scenario_chat =
    [ mkMessage u1 (Some u2) (Some "hi") None 1000;
      mkMessage u1 (Some u3) (Some "hello") None 1005;
      mkMessage u2 (Some u1) None (Some "uploads/1007-cat.png") 1007 ].
Proof. reflexivity. Qed.

Lemma getConversation_returns_in_stored_order_witness :
  exists found,
    outcome (getConversation (mkTokenPayload u1) u2 scenario_chat)
      = Returned (json (JsonMessages found)) /\
    pm_timestamp <$> found = [1000%Z; 1007%Z] /\
    Sorted Z.le (pm_timestamp <$> found).
Proof.
  destruct (getConversation_returns_in_stored_order (mkTokenPayload u1) u2
              scenario_chat) as (found & Hrun & _ & _ & Hts & Hsorted).
  exists found. split; [by rewrite Hrun|]. split; [by rewrite Hts|].
  apply Hsorted. unfold chronological. rewrite scenario_chat_messages. simpl.
  repeat constructor; lia.
Defined.

(** C2 fails on the code: the answer follows the order of insertion, not the
    timestamps.  Two messages stored while the clock read 2000 and then 1000
    come back in that order. *)
Lemma getConversation_is_not_sorted_by_time :
  (let ext := mkExternals scenario_verify Message_schema_valid no_validators in
   scenario_db_back
     = db_after (sendMessage ext (mkEnv 1000 r2) (mkTokenPayload u2)
                   (<["receiver" := u1]> (<["content" := "early"]> ∅)) None
          (db_after (sendMessage ext (mkEnv 2000 r2) (mkTokenPayload u1)
                       (<["receiver" := u2]> (<["content" := "late"]> ∅)) None
                       scenario_db)))) /\
  outcome (getConversation (mkTokenPayload u1) u2 scenario_db_back)
    = Returned (json (JsonMessages
        [ mkPopulatedMessage (Some (mkPublicProfile u1 "ann" None))
                             (Some (mkPublicProfile u2 "bob" None))
                             (Some "late") None 2000;
          mkPopulatedMessage (Some (mkPublicProfile u2 "bob" None))
                             (Some (mkPublicProfile u1 "ann" None))
                             (Some "early") None 1000 ])) /\
  ~ Sorted Z.le [2000%Z; 1000%Z].
Proof.
  split; [reflexivity|]. split; [reflexivity|].
  intros Hs. apply Sorted_inv in Hs as [_ Hhd].
  apply HdRel_inv in Hhd. lia.
Qed.

Example scenario_conversation :
  outcome (getConversation (mkTokenPayload u1) u2 scenario_chat)
    = Returned (json (JsonMessages
        [ mkPopulatedMessage (Some (mkPublicProfile u1 "ann" None))
                             (Some (mkPublicProfile u2 "bob" None))
                             (Some "hi") None 1000;
          mkPopulatedMessage (Some (mkPublicProfile u2 "bob" None))
                             (Some (mkPublicProfile u1 "ann" None))
                             None (Some "uploads/1007-cat.png") 1007 ])).
Proof. reflexivity. Qed.

(** ** The relay *)

Lemma received_app l (ds1 ds2 : list Delivery) :
  received l (ds1 ++ ds2) = received l ds1 ++ received l ds2.
Proof. unfold received. by rewrite List.filter_app, fmap_app. Qed.

Lemma received_emit_absent l ev (xs : list string) :
  l ∉ xs -> received l ((fun x => (x, ev)) <$> xs) = [].
Proof.
  induction xs as [|x xs IH]; [done|].
  intros Hn. apply not_elem_of_cons in Hn as [Hne Hn].
  unfold received in *. simpl.
  rewrite bool_decide_eq_false_2 by congruence. by apply IH.
Qed.

Lemma received_emit_once l ev (xs : list string) :
  NoDup xs -> l ∈ xs -> received l ((fun x => (x, ev)) <$> xs) = [ev].
Proof.
  induction 1 as [|x xs Hx Hnd IH]; intros Hl; [by apply elem_of_nil in Hl|].
  change ((fun x => (x, ev)) <$> x :: xs)
    with ([(x, ev)] ++ ((fun x => (x, ev)) <$> xs)).
  rewrite received_app. unfold received at 1. simpl.
  destruct (decide (x = l)) as [->|Hne].
  - rewrite bool_decide_eq_true_2 by done. simpl.
    by rewrite received_emit_absent.
  - rewrite bool_decide_eq_false_2 by done. simpl.
    apply IH. apply elem_of_cons in Hl as [->|Hl]; [done|exact Hl].
Qed.

Lemma received_io_emit_connected l ev (sockets : gset string) :
  l ∈ sockets -> received l (io_emit sockets ev) = [ev].
Proof.
  intros Hl. apply received_emit_once; [apply NoDup_elements|].
  by apply elem_of_elements.
Qed.

Lemma received_io_emit_unconnected l ev (sockets : gset string) :
  l ∉ sockets -> received l (io_emit sockets ev) = [].
Proof.
  intros Hl. apply received_emit_absent. by rewrite elem_of_elements.
Qed.

Lemma relay_step_sendMessage (sockets : gset string) s arg ev :
  s ∈ sockets ->
  destructure arg = Returned ev ->
  relay_step sockets (SendMessage s arg) = Returned (sockets, io_emit sockets ev).
Proof.
  intros Hs Hd. simpl. rewrite decide_True by done. by rewrite Hd.
Qed.

Section Relay.


(** C10: the relay checks no token.  Any connected socket gets the four
    fields of its own object re-emitted to everyone as they came, the
    [sender] included; on the REST route the stored sender is the id of the
    verified token's payload, whatever the body carries. *)
Theorem relay_sender_is_client_supplied
    (ext : Externals) env token user reqbody file db (sockets : gset string) s
    (fields : gmap string JsVal) :
  s ∈ sockets ->
  token <> "" ->
  jwt_verify ext token = Some user ->
  message_valid ext (mkMessage (id user) (reqbody !! "receiver") (reqbody !! "content")
                           file (now env)) = true ->
  relay_step sockets (SendMessage s (Object fields))
    = Returned (sockets,
                io_emit sockets
                  (mkReceiveMessage (fields !! "sender") (fields !! "receiver")
                                    (fields !! "content") (fields !! "media"))) /\
  (forall l, l ∈ sockets ->
     ev_sender <$> received l (relay_run sockets [SendMessage s (Object fields)])
       = [fields !! "sender"]) /\
  handle ext env
         (mkRequest (Some token) (POST_messages reqbody file)) db
    = (Returned (mkResponse 201 (Text "Message sent")),
       mkDb (users db) (friendrequests db)
            (messages db ++
               [mkMessage (id user) (reqbody !! "receiver") (reqbody !! "content")
                          file (now env)]),
       [OpMessageInsert]).
Proof.
  intros Hs Htok Hv Hm. split; [by apply relay_step_sendMessage|]. split.
  - intros l Hl. cbn [relay_run].
    rewrite (relay_step_sendMessage sockets s (Object fields) _ Hs eq_refl).
    rewrite app_nil_r, received_io_emit_connected by done. done.
  - rewrite (handle_verified _ _ _ _ user).
    + simpl. by apply sendMessage_valid.
    + simpl. by apply bool_decide_eq_false_2.
    + done.
Qed.

End Relay.


Example three_sockets_one_copy_each :
  let ds := relay_run scenario_sockets [SendMessage "s1" (Object scenario_packet)] in
  let ev := mkReceiveMessage (Some (JStr u1)) (Some (JStr u2))
                             (Some (JStr "hi")) None in
  length ds = 3 /\
  received "s1" ds = [ev] /\ received "s2" ds = [ev] /\ received "s3" ds = [ev].
Proof. repeat split; reflexivity. Qed.

Lemma relay_sender_is_client_supplied_witness :
  relay_step scenario_sockets (SendMessage "s3" (Object scenario_packet))
    = Returned (scenario_sockets,
                io_emit scenario_sockets
                  (mkReceiveMessage (scenario_packet !! "sender")
                                    (scenario_packet !! "receiver")
                                    (scenario_packet !! "content")
                                    (scenario_packet !! "media")))
  /\ messages (db_after
       (handle scenario_ext scenario_env
          (mkRequest (Some "token-u3")
             (POST_messages (<["sender" := u1]> (<["receiver" := u2]> ∅)) None))
          scenario_db))
     = [mkMessage u3 (Some u2) None None 1000].
Proof.
  pose proof (relay_sender_is_client_supplied scenario_ext scenario_env
                "token-u3" (mkTokenPayload u3)
                (<["sender" := u1]> (<["receiver" := u2]> ∅)) None scenario_db
                scenario_sockets "s3" scenario_packet) as H.
  destruct H as (Hrelay & _ & Hrest).
  - apply (bool_decide_unpack _). vm_compute. exact I.
  - discriminate.
  - reflexivity.
  - reflexivity.
  - split; [exact Hrelay|]. rewrite Hrest. reflexivity.
Defined.

Section NeverRaised.

Variable ext : Externals.

(** No route raises one of the design's error kinds. *)
Lemma handler_raises env r user db e :
  outcome (handler ext env r user db) = Threw e ->
  e = TypeError \/ e = ValidationError \/ e = DuplicateKey.
Proof.
  destruct r; unfold handler, getProfile, updateProfilePicture, sendFriendRequest,
    listPendingRequests, acceptFriendRequest, sendMessage, getConversation;
    step_handler;
    intros H; repeat (case_match; simpl in *; simplify_eq);
    simplify_eq; auto.
Qed.

Lemma handle_raises env req db e :
  outcome (handle ext env req db)
    = Threw e ->
  e = TypeError \/ e = ValidationError \/ e = DuplicateKey.
Proof.
  destruct (handle_cases ext env req db)
    as [-> | [-> | [user ->]]]; [done | done | apply handler_raises].
Qed.

End NeverRaised.

(** * Further properties of the routes *)

(** ** An accept that cannot finish *)

Lemma accept_missing_user user i db r :
  friendrequests db !! i = Some r ->
  users db !! requester r = None
  \/ recipient r ≫= (fun b => users db !! b) = None ->
  acceptFriendRequest user i db
    = (Threw TypeError, marked_store i db,
       [OpFriendRequestFindById i; OpFriendRequestUpdate i;
        OpUserFindById (Some (requester r)); OpUserFindById (recipient r)]) /\
  status <$> friendrequests (marked_store i db) !! i = Some accepted /\
  users (marked_store i db) = users db.
Proof.
  intros Hr Hmiss. split; [|split].
  - unfold acceptFriendRequest. step_handler. rewrite Hr. simpl.
    destruct Hmiss as [Ha | Hb].
    + rewrite Ha. simpl.
      by destruct (recipient r ≫= fun i0 => hydrate i0 <$> users db !! i0).
    + assert (recipient r ≫= (fun i0 => hydrate i0 <$> users db !! i0) = None)
        as ->.
      { destruct (recipient r) as [b|]; [|done]. simpl in *. by rewrite Hb. }
      by destruct (users db !! requester r).
  - simpl. by rewrite lookup_alter_eq, Hr.
  - done.
Qed.

(** X1: When the request is stored but its requester or its recipient is not, the
    handler has already saved the request as accepted before it throws on the
    missing user: the request is accepted although no friend list changed. *)
Theorem accept_with_missing_user_marks_only user i db r :
  friendrequests db !! i = Some r ->
  users db !! requester r = None
  \/ recipient r ≫= (fun b => users db !! b) = None ->
  let db' := db_after (acceptFriendRequest user i db) in
  outcome (acceptFriendRequest user i db) = Threw TypeError /\
  status <$> friendrequests db' !! i = Some accepted /\
  (forall k, k <> i -> friendrequests db' !! k = friendrequests db !! k) /\
  users db' = users db /\
  messages db' = messages db.
Proof.
  intros Hr Hmiss db'. unfold db'.
  destruct (accept_missing_user user i db r Hr Hmiss) as (-> & Hst & Hus).
  unfold outcome, db_after. cbn [fst snd]. repeat split; try done.
  intros k Hk. simpl. by rewrite lookup_alter_ne.
Qed.

Lemma accept_with_missing_user_marks_only_witness :
  outcome (acceptFriendRequest (mkTokenPayload u1) r2 scenario_db_orphan)
    = Threw TypeError /\
  status <$> friendrequests
      (db_after (acceptFriendRequest (mkTokenPayload u1) r2 scenario_db_orphan))
    !! r2 = Some accepted.
Proof.
  destruct (accept_with_missing_user_marks_only (mkTokenPayload u1) r2
              scenario_db_orphan (mkFriendRequest u1 (Some r404) pending))
    as (Hrun & Hst & _).
  - reflexivity.
  - right. reflexivity.
  - split; [exact Hrun | exact Hst].
Defined.

(** ** What the other writing routes do to the store *)

Lemma updateProfilePicture_found user p db u :
  users db !! id user = Some u ->
  updateProfilePicture user (Some p) db
    = (Returned (json (JsonUser (id user)
                         (mkUser (username u) (Some p) (friends u)))),
       pictured_store (id user) p db,
       [OpUserFindById (Some (id user)); OpUserUpdate (id user)]).
Proof.
  intros Hu. unfold updateProfilePicture. step_handler. by rewrite Hu.
Qed.

Lemma updateProfilePicture_failing user file db :
  file = None \/ users db !! id user = None ->
  updateProfilePicture user file db
    = (Threw TypeError, db, [OpUserFindById (Some (id user))]).
Proof.
  intros H. unfold updateProfilePicture. step_handler.
  destruct H as [-> | ->]; [done|]. by destruct file.
Qed.

Lemma sendFriendRequest_stored ext env user reqbody db :
  let r := mkFriendRequest (id user) (reqbody !! "recipientId") pending in
  friendrequest_valid ext r = true ->
  friendrequests db !! new_id env = None ->
  sendFriendRequest ext env user reqbody db
    = (Returned (mkResponse 201 (Text "Friend request sent")),
       mkDb (users db) (<[new_id env := r]> (friendrequests db)) (messages db),
       [OpFriendRequestInsert (new_id env)]).
Proof.
  intros r Hv Hfresh. unfold sendFriendRequest. step_handler. fold r.
  by rewrite Hv, Hfresh.
Qed.

Lemma sendFriendRequest_refused ext env user reqbody db :
  let r := mkFriendRequest (id user) (reqbody !! "recipientId") pending in
  friendrequest_valid ext r = false ->
  sendFriendRequest ext env user reqbody db = (Threw ValidationError, db, []).
Proof.
  intros r Hv. unfold sendFriendRequest. step_handler. fold r. by rewrite Hv.
Qed.

Lemma sendFriendRequest_taken ext env user reqbody db :
  let r := mkFriendRequest (id user) (reqbody !! "recipientId") pending in
  friendrequest_valid ext r = true ->
  is_Some (friendrequests db !! new_id env) ->
  sendFriendRequest ext env user reqbody db
    = (Threw DuplicateKey, db, [OpFriendRequestInsert (new_id env)]).
Proof.
  intros r Hv [old Hold]. unfold sendFriendRequest. step_handler. fold r.
  by rewrite Hv, Hold.
Qed.

(** ** Every request is one of six effects on the store *)

Lemma acceptFriendRequest_transition user i db :
  transition db (db_after (acceptFriendRequest user i db)).
Proof.
  destruct (friendrequests db !! i) as [r|] eqn:Hr.
  - destruct (users db !! requester r) as [ua|] eqn:Hua.
    + destruct (recipient r) as [b|] eqn:Hb.
      * destruct (users db !! b) as [ub|] eqn:Hub.
        -- rewrite (accept_found user i db r b ua ub) by done.
           apply transition_accepted.
        -- destruct (accept_missing_user user i db r) as [-> _];
             [done | right; by rewrite Hb | apply transition_marked].
      * destruct (accept_missing_user user i db r) as [-> _];
          [done | right; by rewrite Hb | apply transition_marked].
    + destruct (accept_missing_user user i db r) as [-> _];
        [done | by left | apply transition_marked].
  - rewrite accept_absent by done. apply transition_none.
Qed.

Lemma handler_transition ext env r user db :
  transition db (db_after (handler ext env r user db)).
Proof.
  destruct r as [ | file | reqbody | | param_id | reqbody file | receiverId ];
    simpl.
  - apply transition_none.
  - destruct file as [p|].
    + destruct (users db !! id user) as [u|] eqn:Hu.
      * rewrite (updateProfilePicture_found user p db u) by done.
        apply transition_picture.
      * rewrite updateProfilePicture_failing by auto. apply transition_none.
    + rewrite updateProfilePicture_failing by auto. apply transition_none.
  - set (r := mkFriendRequest (id user) (reqbody !! "recipientId") pending).
    destruct (friendrequest_valid ext r) eqn:Hv.
    + destruct (friendrequests db !! new_id env) eqn:Hf.
      * rewrite sendFriendRequest_taken by eauto. apply transition_none.
      * rewrite sendFriendRequest_stored by done.
        by apply (transition_request db).
    + rewrite sendFriendRequest_refused by done. apply transition_none.
  - apply transition_none.
  - apply acceptFriendRequest_transition.
  - set (m := mkMessage (id user) (reqbody !! "receiver") (reqbody !! "content")
                        file (now env)).
    destruct (message_valid ext m) eqn:Hv.
    + rewrite sendMessage_valid by done. apply transition_message.
    + rewrite sendMessage_invalid by done. apply transition_none.
  - apply transition_none.
Qed.

Lemma handle_transition ext env req db :
  transition db (db_after (handle ext env req db)).
Proof.
  destruct (handle_cases ext env req db) as [-> | [-> | [user ->]]];
    [apply transition_none | apply transition_none | apply handler_transition].
Qed.

(** ** What no sequence of requests undoes *)

Lemma user_kept_refl u : user_kept u u.
Proof. by split. Qed.

Lemma user_kept_trans u1 u2 u3 : user_kept u1 u2 -> user_kept u2 u3 -> user_kept u1 u3.
Proof.
  intros [Hn1 Hf1] [Hn2 Hf2]. split; [congruence | by etrans].
Qed.

Lemma request_kept_refl r : request_kept r r.
Proof. unfold request_kept. auto. Qed.

Lemma request_kept_trans r1 r2 r3 :
  request_kept r1 r2 -> request_kept r2 r3 -> request_kept r1 r3.
Proof.
  intros (Ha1 & Hb1 & Hs1) (Ha2 & Hb2 & Hs2).
  split; [congruence|]. split; [congruence|].
  destruct Hs1 as [Hs1|Hs1], Hs2 as [Hs2|Hs2];
    first [left; congruence | right; congruence].
Qed.

Lemma alter_picture_kept k p (us : gmap string User) j u :
  us !! j = Some u ->
  exists u', alter (apply_changes [SetProfilePicture p]) k us !! j = Some u'
             /\ user_kept u u'.
Proof.
  intros Hu. destruct (decide (k = j)) as [->|Hne].
  - rewrite lookup_alter_eq, Hu. eexists. split; [done|]. by split.
  - rewrite lookup_alter_ne by done. eauto using user_kept_refl.
Qed.

Lemma alter_push_kept k x (us : gmap string User) j u :
  us !! j = Some u ->
  exists u', alter (apply_changes [PushFriend x]) k us !! j = Some u'
             /\ user_kept u u'.
Proof.
  intros Hu. destruct (decide (k = j)) as [->|Hne].
  - rewrite lookup_alter_eq, Hu. eexists. split; [done|].
    split; [done|]. simpl. by apply prefix_app_r.
  - rewrite lookup_alter_ne by done. eauto using user_kept_refl.
Qed.

Lemma alter_marked_kept i (rs : gmap string FriendRequest) j r :
  rs !! j = Some r ->
  exists r',
    alter (fun old => mkFriendRequest (requester old) (recipient old) accepted) i rs
      !! j = Some r'
    /\ request_kept r r'.
Proof.
  intros Hr. destruct (decide (i = j)) as [->|Hne].
  - rewrite lookup_alter_eq, Hr. eexists. split; [done|].
    unfold request_kept. simpl. auto.
  - rewrite lookup_alter_ne by done. eauto using request_kept_refl.
Qed.

Lemma transition_user_kept db db' k u :
  transition db db' ->
  users db !! k = Some u ->
  exists u', users db' !! k = Some u' /\ user_kept u u'.
Proof.
  intros Ht Hu. destruct Ht; simpl; eauto using user_kept_refl.
  - by apply alter_picture_kept.
  - destruct (alter_push_kept a b (users db) k u Hu) as (u1 & Hu1 & Hk1).
    destruct (alter_push_kept b a _ k u1 Hu1) as (u2 & Hu2 & Hk2).
    eauto using user_kept_trans.
Qed.

Lemma transition_user_absent db db' k :
  transition db db' -> users db !! k = None -> users db' !! k = None.
Proof.
  intros Ht Hu. destruct Ht; simpl; try done.
  - by rewrite lookup_alter_None.
  - by rewrite !lookup_alter_None.
Qed.

Lemma transition_request_kept db db' k r :
  transition db db' ->
  friendrequests db !! k = Some r ->
  exists r', friendrequests db' !! k = Some r' /\ request_kept r r'.
Proof.
  intros Ht Hr. destruct Ht; simpl; eauto using request_kept_refl.
  - rewrite lookup_insert_ne by congruence. eauto using request_kept_refl.
  - by apply alter_marked_kept.
  - by apply alter_marked_kept.
Qed.

Lemma transition_request_new db db' k r' :
  transition db db' ->
  friendrequests db !! k = None ->
  friendrequests db' !! k = Some r' ->
  status r' = pending.
Proof.
  intros Ht Hn Hr'. destruct Ht; simpl in *; try congruence.
  - destruct (decide (i = k)) as [->|Hne].
    + rewrite lookup_insert_eq in Hr'. congruence.
    + rewrite lookup_insert_ne in Hr' by done. congruence.
  - rewrite lookup_alter_Some in Hr'. destruct Hr' as [(_ & r & ? & _)|[_ ?]]; congruence.
  - rewrite lookup_alter_Some in Hr'. destruct Hr' as [(_ & r & ? & _)|[_ ?]]; congruence.
Qed.

Lemma server_step_transition ext s e :
  transition (store s) (store (server_step ext s e)).
Proof.
  destruct e as [d | fresh req]; simpl;
    [apply transition_none | apply handle_transition].
Qed.

(** X2: No route creates or deletes a user: whatever requests are handled, the
    stored users are the same ids as before. *)
Theorem users_are_never_created_or_deleted ext es : forall s k,
  is_Some (users (store (server_run ext s es)) !! k)
  <-> is_Some (users (store s) !! k).
Proof.
  induction es as [|e es IH]; intros s k; simpl; [done|].
  rewrite IH.
  pose proof (server_step_transition ext s e) as Ht.
  destruct (users (store s) !! k) as [u|] eqn:Hu.
  - destruct (transition_user_kept _ _ k u Ht Hu) as (u' & -> & _).
    split; eauto.
  - by rewrite (transition_user_absent _ _ k Ht Hu).
Qed.

(** X3: No route removes a friend or renames a user: whatever requests are
    handled, a stored user keeps its username, and its friend list only gets
    longer at the end. *)
Theorem friends_are_only_added ext es : forall s k u,
  users (store s) !! k = Some u ->
  exists u',
    users (store (server_run ext s es)) !! k = Some u' /\
    username u' = username u /\
    friends u `prefix_of` friends u'.
Proof.
  induction es as [|e es IH]; intros s k u Hu; simpl.
  - exists u. by repeat split.
  - destruct (transition_user_kept _ _ k u (server_step_transition ext s e) Hu)
      as (u1 & Hu1 & Hk1).
    destruct (IH _ k u1 Hu1) as (u' & Hu' & Hn & Hf).
    exists u'. destruct Hk1 as [Hn1 Hf1].
    split; [done|]. split; [congruence | by etrans].
Qed.

Lemma server_run_request_kept ext es : forall s k r,
  friendrequests (store s) !! k = Some r ->
  exists r',
    friendrequests (store (server_run ext s es)) !! k = Some r' /\
    request_kept r r'.
Proof.
  induction es as [|e es IH]; intros s k r Hr; simpl.
  - eauto using request_kept_refl.
  - destruct (transition_request_kept _ _ k r (server_step_transition ext s e) Hr)
      as (r1 & Hr1 & Hk1).
    destruct (IH _ k r1 Hr1) as (r' & Hr' & Hk').
    eauto using request_kept_trans.
Qed.

(** X4: No route deletes a friend request, changes its parties or takes back an
    acceptance: whatever requests are handled, a stored request stays stored
    with the same requester and recipient, its status is what it was or
    [accepted], and an accepted request stays accepted. *)
Theorem friend_requests_only_move_to_accepted ext es s k r :
  friendrequests (store s) !! k = Some r ->
  exists r',
    friendrequests (store (server_run ext s es)) !! k = Some r' /\
    requester r' = requester r /\
    recipient r' = recipient r /\
    (status r' = status r \/ status r' = accepted) /\
    (status r = accepted -> status r' = accepted).
Proof.
  intros Hr.
  destruct (server_run_request_kept ext es s k r Hr) as (r' & Hr' & Ha & Hb & Hs).
  exists r'. repeat split; try done.
  intros Hacc. destruct Hs as [Hs|Hs]; congruence.
Qed.

(** X5: No route declines: if no stored request is declined, none ever is,
    whatever requests are handled. *)
Theorem no_request_is_ever_declined ext es : forall s,
  (forall k r, friendrequests (store s) !! k = Some r -> status r <> declined) ->
  forall k r,
    friendrequests (store (server_run ext s es)) !! k = Some r ->
    status r <> declined.
Proof.
  induction es as [|e es IH]; intros s Hs k r Hr; simpl in Hr; [by eapply Hs|].
  eapply IH; [|exact Hr]. clear k r Hr. intros k r Hr.
  pose proof (server_step_transition ext s e) as Ht.
  destruct (friendrequests (store s) !! k) as [r0|] eqn:Hr0.
  - destruct (transition_request_kept _ _ k r0 Ht Hr0) as (r1 & Hr1 & _ & _ & Hst).
    assert (r1 = r) as -> by congruence.
    specialize (Hs k r0 Hr0).
    destruct Hst as [Hst|Hst]; rewrite Hst; [done | discriminate].
  - rewrite (transition_request_new _ _ k r Ht Hr0 Hr). discriminate.
Qed.

Lemma friends_are_only_added_witness :
  exists u',
    users (store (server_run scenario_ext (mkServer scenario_db 1000)
                             scenario_friend_events)) !! u1 = Some u' /\
    username u' = "ann" /\
    [] `prefix_of` friends u'.
Proof.
  apply (friends_are_only_added scenario_ext scenario_friend_events
           (mkServer scenario_db 1000) u1 (mkUser "ann" None [])).
  reflexivity.
Defined.

Lemma friend_requests_only_move_to_accepted_witness :
  exists r',
    friendrequests (store (server_run scenario_ext (mkServer scenario_db 1000)
                                      scenario_friend_events)) !! r1 = Some r' /\
    requester r' = u1 /\
    recipient r' = Some u2 /\
    (status r' = pending \/ status r' = accepted) /\
    (pending = accepted -> status r' = accepted).
Proof.
  apply (friend_requests_only_move_to_accepted scenario_ext scenario_friend_events
           (mkServer scenario_db 1000) r1 (mkFriendRequest u1 (Some u2) pending)).
  reflexivity.
Defined.

Lemma no_request_is_ever_declined_witness :
  friendrequests (store (server_run scenario_ext (mkServer scenario_db 1000)
                                    scenario_friend_events)) !! r1
    = Some (mkFriendRequest u1 (Some u2) accepted) /\
  status (mkFriendRequest u1 (Some u2) accepted) <> declined.
Proof.
  split; [reflexivity|].
  apply (no_request_is_ever_declined scenario_ext scenario_friend_events
           (mkServer scenario_db 1000)) with (k := r1).
  - intros k r Hr. simpl in Hr.
    apply lookup_insert_Some in Hr as [[_ <-]|[_ Hr]]; [discriminate|].
    by rewrite lookup_empty in Hr.
  - reflexivity.
Defined.

Example scenario_friends_after_events :
  users (store (server_run scenario_ext (mkServer scenario_db 1000)
                           scenario_friend_events))
    !! u1 = Some (mkUser "ann" (Some "uploads/1003-ann.png") [u2]).
Proof. reflexivity. Qed.

(** ** Pending requests *)

Lemma List_filter_sublist {A} (f : A -> bool) (l : list A) :
  List.filter f l `sublist_of` l.
Proof.
  induction l as [|x l IH]; simpl; [done|].
  destruct (f x); [by apply sublist_skip | by apply sublist_cons].
Qed.

Lemma pending_for_spec who (ir : string * FriendRequest) :
  pending_for who ir = true
  <-> recipient ir.2 = Some who /\ status ir.2 = pending.
Proof.
  unfold pending_for. by rewrite andb_true_iff, !bool_decide_eq_true.
Qed.

Lemma elem_of_pending who db (pr : PopulatedRequest) :
  pr ∈ populate_requester db <$>
         List.filter (pending_for who) (map_to_list (friendrequests db))
  <-> exists r,
        friendrequests db !! pr_id pr = Some r /\
        recipient r = Some who /\
        status r = pending /\
        pr = populate_requester db (pr_id pr, r).
Proof.
  rewrite list_elem_of_fmap. split.
  - intros ([i r] & -> & Hin). apply list_elem_of_In, List.filter_In in Hin.
    destruct Hin as [Hin Hp]. apply list_elem_of_In, elem_of_map_to_list in Hin.
    apply pending_for_spec in Hp as [Hrec Hst]. simpl in *. eauto 6.
  - intros (r & Hr & Hrec & Hst & Hpr). exists (pr_id pr, r). split; [done|].
    apply list_elem_of_In, List.filter_In. split.
    + by apply list_elem_of_In, elem_of_map_to_list.
    + by apply pending_for_spec.
Qed.

(** X6: [listPendingRequests] changes nothing and answers with exactly the
    stored requests that are addressed to the caller and still pending, each
    once, with the requester populated. *)
Theorem listPendingRequests_lists_exactly_the_pending user db :
  exists rs,
    listPendingRequests user db
      = (Returned (json (JsonRequests rs)), db,
         [OpFriendRequestFind (id user); OpUserPopulate]) /\
    (forall pr,
       pr ∈ rs <->
       exists r,
         friendrequests db !! pr_id pr = Some r /\
         recipient r = Some (id user) /\
         status r = pending /\
         pr = mkPopulatedRequest (pr_id pr) (populate_ref db (Some (requester r)))
                                 (Some (id user)) pending) /\
    NoDup (pr_id <$> rs).
Proof.
  eexists. split; [reflexivity|]. split.
  - intros pr. rewrite elem_of_pending. split.
    + intros (r & Hr & Hrec & Hst & Hpr). exists r. repeat split; try done.
      rewrite Hpr. unfold populate_requester. simpl. by rewrite Hrec, Hst.
    + intros (r & Hr & Hrec & Hst & Hpr). exists r. repeat split; try done.
      rewrite Hpr. unfold populate_requester. simpl. by rewrite Hrec, Hst.
  - rewrite <- list_fmap_compose.
    change (pr_id ∘ populate_requester db) with (@fst string FriendRequest).
    eapply sublist_NoDup; [apply (NoDup_fst_map_to_list (friendrequests db))|].
    apply fmap_sublist, List_filter_sublist.
Qed.

(** X7: A friend request that was stored shows up in its recipient's pending
    list, with the sender's profile; nothing is asked of the recipient, who
    may be the sender or an id that is not a user. *)
Theorem sent_request_shows_up_for_its_recipient ext env user reqbody db b :
  reqbody !! "recipientId" = Some b ->
  friendrequest_valid ext (mkFriendRequest (id user) (Some b) pending) = true ->
  friendrequests db !! new_id env = None ->
  let db' := db_after (sendFriendRequest ext env user reqbody db) in
  outcome (sendFriendRequest ext env user reqbody db)
    = Returned (mkResponse 201 (Text "Friend request sent")) /\
  exists rs,
    outcome (listPendingRequests (mkTokenPayload b) db')
      = Returned (json (JsonRequests rs)) /\
    mkPopulatedRequest (new_id env) (populate_ref db (Some (id user)))
                       (Some b) pending ∈ rs.
Proof.
  intros Hb Hv Hfresh db'. unfold db'.
  rewrite sendFriendRequest_stored by (by rewrite ?Hb).
  split; [done|]. eexists. split; [reflexivity|].
  apply elem_of_pending. simpl. rewrite Hb.
  exists (mkFriendRequest (id user) (Some b) pending).
  rewrite lookup_insert_eq. by repeat split.
Qed.

Lemma accept_requests user i db r :
  friendrequests db !! i = Some r ->
  friendrequests (db_after (acceptFriendRequest user i db))
    = alter (fun old => mkFriendRequest (requester old) (recipient old) accepted)
            i (friendrequests db).
Proof.
  intros Hr.
  destruct (users db !! requester r) as [ua|] eqn:Hua.
  - destruct (recipient r ≫= fun b => users db !! b) as [ub|] eqn:Hub.
    + destruct (recipient r) as [b|] eqn:Hb; [|done]. simpl in Hub.
      by rewrite (accept_found user i db r b ua ub).
    + destruct (accept_missing_user user i db r Hr
                  (or_intror Hub)) as [Hrun _].
      by rewrite Hrun.
  - destruct (accept_missing_user user i db r Hr
                (or_introl Hua)) as [Hrun _].
    by rewrite Hrun.
Qed.

(** X8: Once [acceptFriendRequest] has run on a stored request, that request is
    in nobody's pending list any more, also when the accept itself failed on
    a missing user. *)
Theorem accepted_request_leaves_every_pending_list user i db r who :
  friendrequests db !! i = Some r ->
  exists rs,
    outcome (listPendingRequests who (db_after (acceptFriendRequest user i db)))
      = Returned (json (JsonRequests rs)) /\
    forall pr, pr ∈ rs -> pr_id pr <> i.
Proof.
  intros Hr. eexists. split; [reflexivity|].
  intros pr Hin Heq. apply elem_of_pending in Hin as (r' & Hr' & _ & Hst & _).
  rewrite (accept_requests user i db r Hr), Heq, lookup_alter_eq, Hr in Hr'.
  simpl in Hr'. by simplify_eq.
Qed.

Lemma sent_request_shows_up_for_its_recipient_witness :
  exists rs,
    outcome (listPendingRequests (mkTokenPayload u1)
               (db_after (sendFriendRequest scenario_ext scenario_env
                            (mkTokenPayload u1) (<["recipientId" := u1]> ∅)
                            scenario_db)))
      = Returned (json (JsonRequests rs)) /\
    mkPopulatedRequest r2 (Some (mkPublicProfile u1 "ann" None)) (Some u1) pending
      ∈ rs.
Proof.
  apply (sent_request_shows_up_for_its_recipient scenario_ext scenario_env
           (mkTokenPayload u1) (<["recipientId" := u1]> ∅) scenario_db u1).
  - reflexivity.
  - reflexivity.
  - reflexivity.
Defined.

Lemma accepted_request_leaves_every_pending_list_witness :
  exists rs,
    outcome (listPendingRequests (mkTokenPayload u2)
               (db_after (acceptFriendRequest (mkTokenPayload u2) r1 scenario_db)))
      = Returned (json (JsonRequests rs)) /\
    forall pr, pr ∈ rs -> pr_id pr <> r1.
Proof.
  apply (accepted_request_leaves_every_pending_list (mkTokenPayload u2) r1
           scenario_db (mkFriendRequest u1 (Some u2) pending) (mkTokenPayload u2)).
  reflexivity.
Defined.

(** ** Profiles *)

Lemma populate_ref_same_public db db' ref :
  (forall k, public k <$> users db' !! k = public k <$> users db !! k) ->
  populate_ref db' ref = populate_ref db ref.
Proof. intros H. destruct ref as [k|]; simpl; [apply H | done]. Qed.

Lemma populate_refs_same_public db db' refs :
  (forall k, public k <$> users db' !! k = public k <$> users db !! k) ->
  populate_refs db' refs = populate_refs db refs.
Proof.
  intros H. unfold populate_refs. apply list_omap_ext, Forall2_same_length_lookup.
  split; [done|]. intros i x y Hx Hy. simplify_eq.
  by apply populate_ref_same_public.
Qed.

Lemma accepted_store_public i a b db k :
  public k <$> users (accepted_store i a b db) !! k = public k <$> users db !! k.
Proof.
  simpl. rewrite !lookup_alter.
  repeat case_decide; subst; rewrite <- ?option_fmap_compose;
    by destruct (users db !! _).
Qed.

Lemma getProfile_outcome user db :
  outcome (getProfile user db)
    = Returned (json (JsonProfile
        (populate_friends db (id user) <$> users db !! id user))).
Proof. reflexivity. Qed.

Lemma populate_refs_snoc db refs k u :
  users db !! k = Some u ->
  populate_refs db (refs ++ [k]) = populate_refs db refs ++ [public k u].
Proof.
  intros Hu. unfold populate_refs. rewrite omap_app. simpl. by rewrite Hu.
Qed.

(** X9: After a completed accept between two distinct stored users, each one's
    profile lists the other, populated, as its last friend. *)
Theorem accept_shows_in_both_profiles user i db r b ua ub :
  friendrequests db !! i = Some r ->
  recipient r = Some b ->
  requester r <> b ->
  users db !! requester r = Some ua ->
  users db !! b = Some ub ->
  let a := requester r in
  let db' := db_after (acceptFriendRequest user i db) in
  outcome (getProfile (mkTokenPayload a) db')
    = Returned (json (JsonProfile (Some
        (mkPopulatedUser a (username ua) (profilePicture ua)
           (populate_refs db (friends ua)
              ++ [mkPublicProfile b (username ub) (profilePicture ub)]))))) /\
  outcome (getProfile (mkTokenPayload b) db')
    = Returned (json (JsonProfile (Some
        (mkPopulatedUser b (username ub) (profilePicture ub)
           (populate_refs db (friends ub)
              ++ [mkPublicProfile a (username ua) (profilePicture ua)]))))).
Proof.
  intros Hr Hb Hne Hua Hub. cbv zeta.
  rewrite (accept_found user i db r b ua ub) by done.
  unfold db_after. cbn [fst snd].
  pose proof (accepted_store_requester i _ b db ua Hne Hua) as Hua'.
  pose proof (accepted_store_recipient i _ b db ub Hne Hub) as Hub'.
  assert (Hpub : forall refs,
             populate_refs (accepted_store i (requester r) b db) refs
               = populate_refs db refs).
  { intros refs. apply populate_refs_same_public. intros k.
    apply accepted_store_public. }
  remember (accepted_store i (requester r) b db) as db' eqn:E. clear E.
  rewrite !getProfile_outcome. cbn [id]. rewrite Hua', Hub'.
  unfold populate_friends. cbn [fmap option_fmap option_map username profilePicture friends].
  rewrite (populate_refs_snoc db' _ b _ Hub').
  rewrite (populate_refs_snoc db' _ (requester r) _ Hua').
  by rewrite !Hpub.
Qed.

Lemma accept_shows_in_both_profiles_witness :
  outcome (getProfile (mkTokenPayload u1)
             (db_after (acceptFriendRequest (mkTokenPayload u2) r1 scenario_db)))
    = Returned (json (JsonProfile (Some
        (mkPopulatedUser u1 "ann" None [mkPublicProfile u2 "bob" None])))).
Proof.
  refine (proj1 (accept_shows_in_both_profiles (mkTokenPayload u2) r1 scenario_db
                   (mkFriendRequest u1 (Some u2) pending) u2
                   (mkUser "ann" None []) (mkUser "bob" None []) _ _ _ _ _)).
  - reflexivity.
  - reflexivity.
  - simpl. discriminate.
  - reflexivity.
  - reflexivity.
Defined.

Lemma pictured_store_twice k p q db :
  pictured_store k q (pictured_store k p db) = pictured_store k q db.
Proof.
  unfold pictured_store. simpl. f_equal. apply map_eq. intros j.
  destruct (decide (k = j)) as [<-|Hne].
  - rewrite !lookup_alter_eq. by destruct (users db !! k).
  - by rewrite !lookup_alter_ne.
Qed.

(** X10: With a file and a stored user, [updateProfilePicture] overwrites that
    user's picture with the file's path and answers with the updated user.
    The user's name and friends, the other users, the requests and the
    messages are as before; the last upload wins, and the next [getProfile]
    shows the new picture. *)
Theorem updateProfilePicture_overwrites_only_the_picture user p db u :
  users db !! id user = Some u ->
  let db' := db_after (updateProfilePicture user (Some p) db) in
  outcome (updateProfilePicture user (Some p) db)
    = Returned (json (JsonUser (id user)
                        (mkUser (username u) (Some p) (friends u)))) /\
  users db' !! id user = Some (mkUser (username u) (Some p) (friends u)) /\
  (forall k, k <> id user -> users db' !! k = users db !! k) /\
  friendrequests db' = friendrequests db /\
  messages db' = messages db /\
  (forall q,
     db_after (updateProfilePicture user (Some q) db')
       = db_after (updateProfilePicture user (Some q) db)) /\
  exists fs,
    outcome (getProfile user db')
      = Returned (json (JsonProfile (Some
          (mkPopulatedUser (id user) (username u) (Some p) fs)))).
Proof.
  intros Hu db'.
  assert (E : db' = pictured_store (id user) p db).
  { unfold db'. by rewrite (updateProfilePicture_found user p db u Hu). }
  clearbody db'. subst db'.
  assert (Hu' : users (pictured_store (id user) p db) !! id user
                = Some (mkUser (username u) (Some p) (friends u))).
  { simpl. by rewrite lookup_alter_eq, Hu. }
  split; [by rewrite (updateProfilePicture_found user p db u Hu)|].
  split; [done|]. split; [|split; [done|split; [done|split]]].
  - intros k Hk. simpl. by rewrite lookup_alter_ne.
  - intros q.
    rewrite (updateProfilePicture_found user q _ _ Hu'),
            (updateProfilePicture_found user q db u Hu).
    unfold db_after. cbn [fst snd]. apply pictured_store_twice.
  - eexists. rewrite getProfile_outcome, Hu'. reflexivity.
Qed.

Lemma updateProfilePicture_overwrites_only_the_picture_witness :
  users (db_after (updateProfilePicture (mkTokenPayload u1)
                     (Some "uploads/1003-ann.png") scenario_db)) !! u1
    = Some (mkUser "ann" (Some "uploads/1003-ann.png") []).
Proof.
  refine (proj1 (proj2
    (updateProfilePicture_overwrites_only_the_picture (mkTokenPayload u1)
       "uploads/1003-ann.png" scenario_db (mkUser "ann" None []) _))).
  reflexivity.
Defined.



(** X12: [getProfile] never throws and writes nothing.  For a token whose user is
    not stored it answers 200 with [null]; otherwise with the user's own
    fields and, as friends, the public profiles of exactly those friend ids
    that are stored users. *)
Theorem getProfile_resolves_stored_friends user db :
  exists answer,
    getProfile user db
      = (Returned (json (JsonProfile answer)), db,
         [OpUserFindById (Some (id user)); OpUserPopulate]) /\
    (users db !! id user = None -> answer = None) /\
    (forall u,
       users db !! id user = Some u ->
       exists fs,
         answer = Some (mkPopulatedUser (id user) (username u)
                                        (profilePicture u) fs) /\
         forall pp,
           pp ∈ fs <->
           exists k uk,
             k ∈ friends u /\ users db !! k = Some uk /\
             pp = mkPublicProfile k (username uk) (profilePicture uk)).
Proof.
  eexists. split; [reflexivity|]. split.
  - by intros ->.
  - intros u ->. eexists. split; [reflexivity|].
    intros pp. unfold populate_refs. rewrite list_elem_of_omap. split.
    + intros (k & Hk & Hpp). simpl in Hpp.
      destruct (users db !! k) as [uk|] eqn:Huk; [|done].
      simpl in Hpp. simplify_eq. by exists k, uk.
    + intros (k & uk & Hk & Huk & ->). exists k. split; [done|].
      simpl. by rewrite Huk.
Qed.

(** ** Sending, then reading *)

Lemma getConversation_outcome user other db :
  outcome (getConversation user other db)
    = Returned (json (JsonMessages
        (populate_message db <$>
           List.filter (between (id user) other) (messages db)))).
Proof. reflexivity. Qed.

(** X14: A message that was stored is the last one of the conversation between
    its sender and its receiver, asked from either side, after everything
    that was there before; conversations of other pairs read as before. *)
Theorem sent_message_ends_the_conversation ext env user reqbody file db b :
  reqbody !! "receiver" = Some b ->
  let m := mkMessage (id user) (Some b) (reqbody !! "content") file (now env) in
  message_valid ext m = true ->
  let db' := db_after (sendMessage ext env user reqbody file db) in
  (exists before,
     outcome (getConversation user b db)
       = Returned (json (JsonMessages before)) /\
     outcome (getConversation user b db')
       = Returned (json (JsonMessages (before ++ [populate_message db m]))) /\
     outcome (getConversation (mkTokenPayload b) (id user) db')
       = Returned (json (JsonMessages (before ++ [populate_message db m])))) /\
  (forall x y,
     ~ in_conversation x y m ->
     outcome (getConversation (mkTokenPayload x) y db')
       = outcome (getConversation (mkTokenPayload x) y db)).
Proof.
  intros Hb m Hv db'.
  assert (E : db' = mkDb (users db) (friendrequests db) (messages db ++ [m])).
  { unfold db'. rewrite sendMessage_valid; rewrite Hb; done. }
  clearbody db'. subst db'.
  assert (Hin : between (id user) b m = true).
  { apply between_spec. by left. }
  split.
  - eexists. split; [apply getConversation_outcome|].
    rewrite !getConversation_outcome. cbn [id messages].
    rewrite <- (List.filter_ext _ _ (between_sym (id user) b)).
    rewrite List.filter_app. cbn [List.filter]. rewrite Hin.
    rewrite fmap_app. done.
  - intros x y Hout. rewrite !getConversation_outcome. cbn [id messages].
    rewrite List.filter_app. cbn [List.filter].
    destruct (between x y m) eqn:Hxy; [by apply between_spec in Hxy|].
    by rewrite app_nil_r.
Qed.

Lemma sent_message_ends_the_conversation_witness :
  outcome (getConversation (mkTokenPayload u2) u1
             (db_after (sendMessage scenario_ext scenario_env (mkTokenPayload u1)
                          (<["receiver" := u2]> (<["content" := "hi"]> ∅)) None
                          scenario_db)))
    = Returned (json (JsonMessages
        [mkPopulatedMessage (Some (mkPublicProfile u1 "ann" None))
                            (Some (mkPublicProfile u2 "bob" None))
                            (Some "hi") None 1000])).
Proof.
  destruct (sent_message_ends_the_conversation scenario_ext scenario_env
              (mkTokenPayload u1) (<["receiver" := u2]> (<["content" := "hi"]> ∅))
              None scenario_db u2) as [(before & Hb & _ & Hrev) _].
  - reflexivity.
  - reflexivity.
  - etrans; [exact Hrev|]. vm_compute in Hb. injection Hb as <-. reflexivity.
Defined.

(** * Further properties of the relay *)

Lemma received_nil l : received l [] = [].
Proof. done. Qed.

(** X15: Two sockets that stay connected see the same packets in the same order,
    whoever else joins, leaves or sends in between. *)
Theorem connected_sockets_receive_the_same_sequence es :
  forall (sockets : gset string) l1 l2,
    l1 ∈ sockets ->
    l2 ∈ sockets ->
    Forall (fun e => joins_or_leaves l1 e = false /\ joins_or_leaves l2 e = false)
           es ->
    received l1 (relay_run sockets es) = received l2 (relay_run sockets es).
Proof.
  induction es as [|e es IH]; intros sockets l1 l2 H1 H2 Hes; [done|].
  apply Forall_cons in Hes as [[He1 He2] Hes]. cbn [relay_run].
  destruct e as [s | s | s arg]; cbn [relay_step].
  - rewrite !received_app. simpl.
    apply IH; [apply elem_of_union; by right | apply elem_of_union; by right | done].
  - simpl in He1, He2.
    apply bool_decide_eq_false in He1. apply bool_decide_eq_false in He2.
    rewrite !received_app. simpl.
    apply IH; [| | done]; apply elem_of_difference;
      (split; [done | by rewrite elem_of_singleton]).
  - destruct (decide (s ∈ sockets)).
    + destruct (destructure arg) as [ev|]; [|done].
      rewrite !received_app, !received_io_emit_connected by done.
      f_equal. by apply IH.
    + rewrite !received_app. simpl. by apply IH.
Qed.

Lemma connected_sockets_receive_the_same_sequence_witness :
  received "s1" (relay_run scenario_sockets
      [SendMessage "s2" (Object scenario_packet); Disconnect "s2";
       SendMessage "s3" (NonObject (JNum 7))])
  = received "s3" (relay_run scenario_sockets
      [SendMessage "s2" (Object scenario_packet); Disconnect "s2";
       SendMessage "s3" (NonObject (JNum 7))]).
Proof.
  apply (connected_sockets_receive_the_same_sequence
           [SendMessage "s2" (Object scenario_packet); Disconnect "s2";
            SendMessage "s3" (NonObject (JNum 7))] scenario_sockets "s1" "s3").
  - apply (bool_decide_unpack _). vm_compute. exact I.
  - apply (bool_decide_unpack _). vm_compute. exact I.
  - repeat constructor.
Defined.

Lemma unconnected_receives_nothing es :
  forall (sockets : gset string) l,
    l ∉ sockets ->
    Forall (fun e => joins l e = false) es ->
    received l (relay_run sockets es) = [].
Proof.
  induction es as [|e es IH]; intros sockets l Hl Hes; [done|].
  apply Forall_cons in Hes as [He Hes]. cbn [relay_run].
  destruct e as [s | s | s arg]; cbn [relay_step].
  - simpl in He. apply bool_decide_eq_false in He.
    rewrite received_app. simpl. apply IH; [|done].
    rewrite not_elem_of_union, elem_of_singleton. split; [congruence | done].
  - rewrite received_app. simpl. apply IH; [|done].
    rewrite elem_of_difference. tauto.
  - destruct (decide (s ∈ sockets)).
    + destruct (destructure arg) as [ev|]; [|done].
      rewrite received_app, received_io_emit_unconnected by done.
      by apply IH.
    + rewrite received_app. simpl. by apply IH.
Qed.

(** X16: A socket that has disconnected is sent nothing, whatever the others do,
    for as long as it does not connect again. *)
Theorem disconnected_socket_receives_nothing (sockets : gset string) l es :
  Forall (fun e => joins l e = false) es ->
  received l (relay_run sockets (Disconnect l :: es)) = [].
Proof.
  intros Hes. cbn [relay_run relay_step]. rewrite received_app. simpl.
  apply unconnected_receives_nothing; [|done].
  rewrite elem_of_difference, elem_of_singleton. tauto.
Qed.

Lemma disconnected_socket_receives_nothing_witness :
  received "s2" (relay_run scenario_sockets
      [Disconnect "s2"; SendMessage "s1" (Object scenario_packet);
       Connection "s4"; SendMessage "s4" (Object scenario_packet)])
  = [].
Proof.
  apply (disconnected_socket_receives_nothing scenario_sockets "s2"
           [SendMessage "s1" (Object scenario_packet);
            Connection "s4"; SendMessage "s4" (Object scenario_packet)]).
  repeat constructor.
Defined.

(** X17: Only the four named properties of the inbound object travel on: two
    objects that agree on [sender], [receiver], [content] and [media] are
    relayed as the same packets, whatever else they carry. *)
Theorem relay_forwards_only_the_four_fields
    (sockets : gset string) s (fields1 fields2 : gmap string JsVal) :
  fields1 !! "sender" = fields2 !! "sender" ->
  fields1 !! "receiver" = fields2 !! "receiver" ->
  fields1 !! "content" = fields2 !! "content" ->
  fields1 !! "media" = fields2 !! "media" ->
  relay_step sockets (SendMessage s (Object fields1))
    = relay_step sockets (SendMessage s (Object fields2)).
Proof.
  intros Hs Hr Hc Hm. cbn [relay_step destructure].
  by rewrite Hs, Hr, Hc, Hm.
Qed.

Lemma relay_forwards_only_the_four_fields_witness :
  relay_step scenario_sockets
             (SendMessage "s1" (Object (<["admin" := JBool true]> scenario_packet)))
    = relay_step scenario_sockets (SendMessage "s1" (Object scenario_packet)).
Proof.
  apply (relay_forwards_only_the_four_fields scenario_sockets "s1"
           (<["admin" := JBool true]> scenario_packet) scenario_packet);
    reflexivity.
Defined.

(** X18: A ['sendMessage'] event whose argument is missing or [null] makes the
    listener throw a [TypeError] and emits nothing; one whose argument is not
    an object is relayed to every socket with all four fields undefined. *)
Theorem sendMessage_with_a_payload_that_is_no_object
    (sockets : gset string) s v :
  s ∈ sockets ->
  relay_step sockets (SendMessage s Nullish) = Threw TypeError /\
  relay_run sockets [SendMessage s Nullish] = [] /\
  relay_step sockets (SendMessage s (NonObject v))
    = Returned (sockets, io_emit sockets (mkReceiveMessage None None None None)) /\
  forall l, l ∈ sockets ->
    received l (relay_run sockets [SendMessage s (NonObject v)])
      = [mkReceiveMessage None None None None].
Proof.
  intros Hs.
  assert (Hnull : relay_step sockets (SendMessage s Nullish) = Threw TypeError).
  { cbn [relay_step destructure]. by rewrite decide_True. }
  assert (Hprim : relay_step sockets (SendMessage s (NonObject v))
                  = Returned (sockets,
                              io_emit sockets (mkReceiveMessage None None None None))).
  { cbn [relay_step destructure]. by rewrite decide_True. }
  split; [done|]. split; [|split; [done|]].
  - cbn [relay_run]. by rewrite Hnull.
  - intros l Hl. cbn [relay_run]. rewrite Hprim.
    by rewrite app_nil_r, received_io_emit_connected.
Qed.

Lemma sendMessage_with_a_payload_that_is_no_object_witness :
  relay_step scenario_sockets (SendMessage "s1" Nullish) = Threw TypeError.
Proof.
  refine (proj1 (sendMessage_with_a_payload_that_is_no_object scenario_sockets
                   "s1" JNull _)).
  apply (bool_decide_unpack _). vm_compute. exact I.
Defined.

(** * Stored file names *)

Lemma string_length_app (s t : string) :
  String.length (s +:+ t) = String.length s + String.length t.
Proof. induction s as [|a s IH]; simpl; [done | by rewrite IH]. Qed.

Lemma string_app_inj_r (s1 s2 t : string) : s1 +:+ t = s2 +:+ t -> s1 = s2.
Proof.
  revert s2. induction s1 as [|a s1 IH]; intros [|b s2] H.
  - done.
  - apply (f_equal String.length) in H.
    rewrite !string_length_app in H. simpl in H. lia.
  - apply (f_equal String.length) in H.
    rewrite !string_length_app in H. simpl in H. lia.
  - simpl in H. injection H as -> H. f_equal. by apply IH.
Qed.

(** X19: The stored name of an upload ends with the name the client gave, and two
    uploads of the same client name get the same stored name exactly when
    [Date.now()] read the same millisecond for both. *)
Theorem storage_filename_differs_with_the_clock t1 t2 name :
  (exists stamp, storage_filename t1 name = stamp +:+ name) /\
  (storage_filename t1 name = storage_filename t2 name <-> t1 = t2).
Proof.
  split; [by eexists|]. split; [|by intros ->].
  unfold storage_filename. intros H.
  apply string_app_inj_r, string_app_inj_r in H. by apply (inj pretty).
Qed.

Example storage_filename_example :
  storage_destination +:+ storage_filename 1007 "cat.png" = "uploads/1007-cat.png".
Proof. reflexivity. Qed.
